(** * The BadgerDB buffer manager ([src/buffer.cpp]) as a state-and-exception
    program over its descriptor table, page table, pool and clock hand. *)

From Stdlib Require Import ZArith String Lia.
From stdpp Require Import gmap list list_numbers.

Local Open Scope Z_scope.

(** ** Machine integers

    [FrameId], [PageId], [numBufs] and the local [count] of [allocBuf] are
    32-bit unsigned; their arithmetic wraps. *)

Definition UINT32_MOD : Z := 2 ^ 32.
Definition wrap32 (z : Z) : Z := z mod UINT32_MOD.

Definition File := nat.
Definition PageId := Z.
Definition FrameId := Z.

(** ** Pages and the file interface *)

(** Modelled from the spec: the [Page] class is declared outside
    [buffer.cpp]; a page is opaque content that carries its page number. *)
Record Page := mkPage { page_number : PageId; data : string }.

Definition INVALID_NUMBER : PageId := 0.
Definition Page_default : Page := mkPage INVALID_NUMBER EmptyString.

(** Calls the manager makes on a [File], in the order they are made. *)
Inductive FileEvent :=
| EvRead (f : File) (p : PageId)
| EvWrite (f : File) (pg : Page)
| EvAllocate (f : File) (p : PageId)
| EvDelete (f : File) (p : PageId).

(** ** Frame descriptors *)

(** The fields [buffer.cpp] reads and writes. The declaration of [BufDesc] is
    in [buffer.h], which is not under [src/]; [pinCnt] is taken as an integer
    that does not wrap. *)
Record BufDesc := mkBufDesc {
  file : File;
  pageNo : PageId;
  frameNo : FrameId;
  pinCnt : Z;
  dirty : bool;
  refbit : bool;
  valid : bool
}.

Definition File_default : File := 0%nat.

(** Modelled from the spec: [BufDesc::clear] is declared in [buffer.h];
    it resets all fields to the invalid state (the slot number stays). *)
Definition clear (d : BufDesc) : BufDesc :=
  mkBufDesc File_default INVALID_NUMBER (frameNo d) 0 false false false.

(** Modelled from the spec: [BufDesc::Set] is declared in [buffer.h];
    it marks the frame occupied by [(f, p)]: occupied, referenced, one pin,
    not modified. *)
Definition Set_ (f : File) (p : PageId) (d : BufDesc) : BufDesc :=
  mkBufDesc f p (frameNo d) 1 false true true.

(** Modelled from the spec: the default constructor of [BufDesc] is in
    [buffer.h]; a frame starts in the invalid state, with no pin and no
    flag set. *)
Definition BufDesc_init (i : FrameId) : BufDesc :=
  mkBufDesc File_default INVALID_NUMBER i 0 false false false.

Definition with_refbit (b : bool) (d : BufDesc) : BufDesc :=
  mkBufDesc (file d) (pageNo d) (frameNo d) (pinCnt d) (dirty d) b (valid d).
Definition with_pinCnt (n : Z) (d : BufDesc) : BufDesc :=
  mkBufDesc (file d) (pageNo d) (frameNo d) n (dirty d) (refbit d) (valid d).
Definition with_dirty (b : bool) (d : BufDesc) : BufDesc :=
  mkBufDesc (file d) (pageNo d) (frameNo d) (pinCnt d) b (refbit d) (valid d).
Definition with_valid (b : bool) (d : BufDesc) : BufDesc :=
  mkBufDesc (file d) (pageNo d) (frameNo d) (pinCnt d) (dirty d) (refbit d) b.
Definition with_frameNo (i : FrameId) (d : BufDesc) : BufDesc :=
  mkBufDesc (file d) (pageNo d) i (pinCnt d) (dirty d) (refbit d) (valid d).

(** ** Exceptions *)

Inductive Exn :=
| BufferExceededException
| HashNotFoundException
| HashAlreadyPresentException
| PageNotPinnedException (pageNo : PageId) (frameNo : FrameId)
| PagePinnedException (pageNo : PageId) (frameNo : FrameId)
| BadBufferException (frameNo : FrameId) (dirty valid refbit : bool)
| InvalidPageException (pageNo : PageId).

(** ** State: the members of [BufMgr] and the files it talks to *)

Record State := mkState {
  numBufs : Z;
  hashTable : gmap (File * PageId) FrameId;
  bufDescTable : list BufDesc;
  bufPool : list Page;
  clockHand : FrameId;
  (* the pages stored in the files, and the calls made on them *)
  disk : gmap (File * PageId) Page;
  io : list FileEvent
}.

Definition set_hashTable (h : gmap (File * PageId) FrameId) (s : State) : State :=
  mkState (numBufs s) h (bufDescTable s) (bufPool s) (clockHand s) (disk s) (io s).
Definition set_bufDescTable (t : list BufDesc) (s : State) : State :=
  mkState (numBufs s) (hashTable s) t (bufPool s) (clockHand s) (disk s) (io s).
Definition set_bufPool (p : list Page) (s : State) : State :=
  mkState (numBufs s) (hashTable s) (bufDescTable s) p (clockHand s) (disk s) (io s).
Definition set_clockHand (c : FrameId) (s : State) : State :=
  mkState (numBufs s) (hashTable s) (bufDescTable s) (bufPool s) c (disk s) (io s).
Definition set_files (d : gmap (File * PageId) Page) (e : list FileEvent)
    (s : State) : State :=
  mkState (numBufs s) (hashTable s) (bufDescTable s) (bufPool s) (clockHand s) d e.

(** [bufDescTable[i]] and [bufPool[i]]; the source indexes a [std::vector]
    without bounds check, and every index it uses lies below [numBufs] in a
    well-formed state (see [wf]). *)
Definition descAt (s : State) (i : FrameId) : BufDesc :=
  default (BufDesc_init i) (bufDescTable s !! Z.to_nat i).
Definition pageAt (s : State) (i : FrameId) : Page :=
  default Page_default (bufPool s !! Z.to_nat i).
Definition set_desc (i : FrameId) (d : BufDesc) (s : State) : State :=
  set_bufDescTable (<[Z.to_nat i := d]> (bufDescTable s)) s.
Definition set_page (i : FrameId) (p : Page) (s : State) : State :=
  set_bufPool (<[Z.to_nat i := p]> (bufPool s)) s.

(** ** A state monad with exceptions; the state survives a throw *)

Inductive Outcome (A : Type) :=
| Ret (a : A)
| Throw (e : Exn)
| OutOfFuel.
Arguments Ret {A} a.
Arguments Throw {A} e.
Arguments OutOfFuel {A}.

Definition M (A : Type) : Type := State -> Outcome A * State.

Definition ret {A} (a : A) : M A := fun s => (Ret a, s).
Definition throw {A} (e : Exn) : M A := fun s => (Throw e, s).
Definition bind {A B} (m : M A) (k : A -> M B) : M B :=
  fun s =>
    match m s with
    | (Ret a, s') => k a s'
    | (Throw e, s') => (Throw e, s')
    | (OutOfFuel, s') => (OutOfFuel, s')
    end.
Definition get : M State := fun s => (Ret s, s).
Definition modify (f : State -> State) : M unit := fun s => (Ret tt, f s).

(** [try { m } catch (HashNotFoundException &e) { h }] *)
Definition try_catch_HashNotFound {A} (m : M A) (h : M A) : M A :=
  fun s =>
    match m s with
    | (Throw HashNotFoundException, s') => h s'
    | r => r
    end.

Declare Scope buf_scope.
Delimit Scope buf_scope with buf.
Notation "x <- c1 ;; c2" := (bind c1 (fun x => c2))
  (at level 100, c1 at next level, right associativity) : buf_scope.
Notation "c1 ;;; c2" := (bind c1 (fun _ => c2))
  (at level 100, right associativity) : buf_scope.
Local Open Scope buf_scope.

(** ** The hash table *)

(** Modelled from the spec: [BufHashTbl] is not under [src/]. [lookup] fails
    with NotFound when no entry exists. *)
Definition hashTable_lookup (f : File) (p : PageId) : M FrameId :=
  fun s =>
    match hashTable s !! (f, p) with
    | Some frame => (Ret frame, s)
    | None => (Throw HashNotFoundException, s)
    end.

(** Modelled from the spec: [BufHashTbl::insert] registers a new mapping and
    is rejected if the key already exists. *)
Definition hashTable_insert (f : File) (p : PageId) (frame : FrameId) : M unit :=
  fun s =>
    match hashTable s !! (f, p) with
    | Some _ => (Throw HashAlreadyPresentException, s)
    | None => (Ret tt, set_hashTable (<[(f, p) := frame]> (hashTable s)) s)
    end.

(** Modelled from the spec: [BufHashTbl::remove] deletes a mapping and fails
    with NotFound if absent. *)
Definition hashTable_remove (f : File) (p : PageId) : M unit :=
  fun s =>
    match hashTable s !! (f, p) with
    | Some _ => (Ret tt, set_hashTable (delete (f, p) (hashTable s)) s)
    | None => (Throw HashNotFoundException, s)
    end.

(** ** The file interface *)

(** Modelled from the spec: [File::readPage] returns the stored content and
    fails if the page does not exist in the file. *)
Definition File_readPage (f : File) (p : PageId) : M Page :=
  fun s =>
    match disk s !! (f, p) with
    | Some pg => (Ret pg, set_files (disk s) (io s ++ [EvRead f p]) s)
    | None => (Throw (InvalidPageException p), s)
    end.

(** Modelled from the spec: [File::writePage] persists content at its
    embedded page number. *)
Definition File_writePage (f : File) (pg : Page) : M unit :=
  fun s =>
    (Ret tt, set_files (<[(f, page_number pg) := pg]> (disk s))
                       (io s ++ [EvWrite f pg]) s).

Definition next_page (f : File) (d : gmap (File * PageId) Page) : PageId :=
  1 + map_fold (fun k _ acc => if decide (k.1 = f) then Z.max k.2 acc else acc) 0 d.

(** Modelled from the spec: [File::allocatePage] creates a new page in the
    file; the content carries a freshly assigned page number. *)
Definition File_allocatePage (f : File) : M Page :=
  fun s =>
    let p := next_page f (disk s) in
    let pg := mkPage p EmptyString in
    (Ret pg, set_files (<[(f, p) := pg]> (disk s)) (io s ++ [EvAllocate f p]) s).

(** Modelled from the spec: [File::deletePage] removes a page from the file
    and is safe if the page is already gone. *)
Definition File_deletePage (f : File) (p : PageId) : M unit :=
  fun s =>
    (Ret tt, set_files (delete (f, p) (disk s)) (io s ++ [EvDelete f p]) s).

(** ** [BufMgr] *)

(** [BufMgr::BufMgr(bufs)], over files holding [d]. The bucket count
    [HASHTABLE_SZ(bufs)] sizes the hash table and does not show in the
    mapping it holds. *)
Definition BufMgr_new (bufs : Z) (d : gmap (File * PageId) Page) : State :=
  mkState bufs ∅
          ((fun i => with_valid false (with_frameNo i (BufDesc_init i))) <$> seqZ 0 bufs)
          (replicate (Z.to_nat bufs) Page_default)
          (wrap32 (bufs - 1))
          d [].

(** [clockHand = (clockHand + 1) % numBufs]; [allocBuf] gets here only with
    [numBufs] above 0. *)
Definition advanceClock : M unit :=
  modify (fun s => set_clockHand (wrap32 (clockHand s + 1) mod numBufs s) s).

(** One pass through the body of the [while] of [allocBuf], after [count++]:
    [Some frame] when the pass returns, [None] when the loop goes round. *)
Definition allocBuf_inspect : M (option FrameId) :=
  advanceClock ;;;
  s <- get ;;
  let desc := descAt s (clockHand s) in
  let file := file desc in
  let page := pageAt s (clockHand s) in
  if valid desc then
    if negb (refbit desc) then
      if pinCnt desc =? 0 then
        (if dirty desc then File_writePage file page else ret tt) ;;;
        modify (set_desc (clockHand s) (clear desc)) ;;;
        hashTable_remove file (page_number page) ;;;
        ret (Some (clockHand s))
      else ret None
    else
      modify (set_desc (clockHand s) (with_refbit false desc)) ;;;
      ret None
  else ret (Some (clockHand s)).

(** The [while (1)] of [allocBuf]. The first component of the result is the
    value of the local [count] when the loop is left. *)
Fixpoint allocBuf_loop (fuel : nat) (count : Z) (s : State)
    : Z * (Outcome FrameId * State) :=
  match fuel with
  | O => (count, (OutOfFuel, s))
  | S fuel' =>
      if wrap32 (numBufs s * 2) <? count then
        (count, (Throw BufferExceededException, s))
      else
        let count := wrap32 (count + 1) in
        match allocBuf_inspect s with
        | (Ret (Some frame), s') => (count, (Ret frame, s'))
        | (Ret None, s') => allocBuf_loop fuel' count s'
        | (Throw e, s') => (count, (Throw e, s'))
        | (OutOfFuel, s') => (count, (OutOfFuel, s'))
        end
  end.

Definition allocBuf_fuel (s : State) : nat := S (Z.to_nat (wrap32 (numBufs s * 2))).

Definition allocBuf : M FrameId :=
  fun s => snd (allocBuf_loop (allocBuf_fuel s) 1 s).

(** Frames inspected by one call of [allocBuf]: [count] starts at 1 and is
    incremented once before each inspection. *)
Definition allocBuf_inspected (s : State) : Z :=
  fst (allocBuf_loop (allocBuf_fuel s) 1 s) - 1.

(** [readPage]; the [Page*] handed back is the pool slot, given by its index. *)
Definition readPage (file : File) (pageNo : PageId) : M FrameId :=
  try_catch_HashNotFound
    (frameNo <- hashTable_lookup file pageNo ;;
     s <- get ;;
     let desc := descAt s frameNo in
     modify (set_desc frameNo (with_pinCnt (pinCnt desc + 1) (with_refbit true desc))) ;;;
     ret frameNo)
    (frameNo <- allocBuf ;;
     pg <- File_readPage file pageNo ;;
     modify (set_page frameNo pg) ;;;
     hashTable_insert file pageNo frameNo ;;;
     s <- get ;;
     modify (set_desc frameNo (Set_ file pageNo (descAt s frameNo))) ;;;
     ret frameNo).

Definition unPinPage (file : File) (pageNo : PageId) (dirty_ : bool) : M unit :=
  frameNo <- hashTable_lookup file pageNo ;;
  s <- get ;;
  let desc := descAt s frameNo in
  if pinCnt desc =? 0 then
    throw (PageNotPinnedException pageNo frameNo)
  else
    let desc := if dirty_ then with_dirty dirty_ desc else desc in
    modify (set_desc frameNo (with_pinCnt (pinCnt desc - 1) desc)).

(** [allocPage]; returns the new page number and the pool slot. *)
Definition allocPage (file : File) : M (PageId * FrameId) :=
  newPage <- File_allocatePage file ;;
  let pageNo := page_number newPage in
  frameNo <- allocBuf ;;
  modify (set_page frameNo newPage) ;;;
  hashTable_insert file pageNo frameNo ;;;
  s <- get ;;
  modify (set_desc frameNo (Set_ file pageNo (descAt s frameNo))) ;;;
  ret (pageNo, frameNo).

(** The body of the [for] of [flushFile] at frame [i]. *)
Definition flushFile_body (file : File) (i : FrameId) : M unit :=
  s <- get ;;
  let desc := descAt s i in
  let page := pageAt s i in
  if negb (pinCnt desc =? 0) then
    throw (PagePinnedException (page_number page) i)
  else if negb (valid desc) then
    throw (BadBufferException i (dirty desc) (valid desc) (refbit desc))
  else
    (if dirty desc then File_writePage file page else ret tt) ;;;
    try_catch_HashNotFound (hashTable_remove file (page_number page)) (ret tt) ;;;
    modify (set_desc i (clear desc)).

(** [for (FrameId i = ...; i < numBufs; i++)], with [n] frames to go. *)
Fixpoint flushFile_loop (file : File) (n : nat) (i : FrameId) : M unit :=
  match n with
  | O => ret tt
  | S n' => flushFile_body file i ;;; flushFile_loop file n' (i + 1)
  end.

Definition flushFile (file : File) : M unit :=
  fun s => flushFile_loop file (Z.to_nat (numBufs s)) 0 s.

Definition disposePage (file : File) (PageNo : PageId) : M unit :=
  try_catch_HashNotFound
    (frameNo <- hashTable_lookup file PageNo ;;
     s <- get ;;
     modify (set_desc frameNo (clear (descAt s frameNo))) ;;;
     hashTable_remove file PageNo)
    (ret tt) ;;;
  File_deletePage file PageNo.

(** ** Well-formed states *)

Record wf (s : State) : Prop := mkWf {
  wf_numBufs : 0 <= numBufs s < UINT32_MOD;
  wf_descs : length (bufDescTable s) = Z.to_nat (numBufs s);
  wf_pool : length (bufPool s) = Z.to_nat (numBufs s);
  wf_clock : 0 < numBufs s -> 0 <= clockHand s < numBufs s;
  wf_hash : forall k frame, hashTable s !! k = Some frame -> 0 <= frame < numBufs s;
  wf_pins : forall i, 0 <= pinCnt (descAt s i)
}.

(** Every frame is occupied and pinned. *)
Definition all_pinned (s : State) : Prop :=
  forall i, 0 <= i < numBufs s ->
    valid (descAt s i) = true /\ pinCnt (descAt s i) <> 0.

(** Every frame is occupied and unpinned. *)
Definition all_flushable (s : State) : Prop :=
  forall i, 0 <= i < numBufs s ->
    pinCnt (descAt s i) = 0 /\ valid (descAt s i) = true.

(** The [writePage] calls of a flush of [f] over the frames [js] of [s]. *)
Definition flush_writes (f : File) (s : State) (js : list FrameId) : list FileEvent :=
  flat_map (fun j => if dirty (descAt s j) then [EvWrite f (pageAt s j)] else []) js.

(** The state one pass of the body of [flushFile] leaves when it does not
    throw: the frame written if dirty, the entry under the flushed file and
    the content's page number dropped if there is one, the descriptor
    cleared. *)
Definition flush_one (f : File) (i : FrameId) (s : State) : State :=
  let d := descAt s i in
  let pg := pageAt s i in
  let s1 := if dirty d
            then set_files (<[(f, page_number pg) := pg]> (disk s))
                           (io s ++ [EvWrite f pg]) s
            else s in
  set_desc i (clear d)
    (set_hashTable (delete (f, page_number pg) (hashTable s1)) s1).

Definition flush_frames (f : File) (js : list FrameId) (s : State) : State :=
  foldl (fun s j => flush_one f j s) s js.

(** The frame the next inspection looks at. *)
Definition next_hand (s : State) : FrameId :=
  wrap32 (clockHand s + 1) mod numBufs s.

(** How a state [s'] reached by sweeping on from [s] without selecting a
    frame relates to [s]: only the clock hand moved and reference bits were
    cleared. *)
Definition sweep_rel (s s' : State) : Prop :=
  numBufs s' = numBufs s /\ hashTable s' = hashTable s /\
  bufPool s' = bufPool s /\ disk s' = disk s /\ io s' = io s /\
  length (bufDescTable s') = length (bufDescTable s) /\
  forall i, with_refbit false (descAt s' i) = with_refbit false (descAt s i) /\
            (refbit (descAt s' i) = true -> refbit (descAt s i) = true).

(** ** Runs of the manager *)

Inductive Op :=
| OpReadPage (file : File) (pageNo : PageId)
| OpUnPinPage (file : File) (pageNo : PageId) (dirty_ : bool)
| OpAllocPage (file : File)
| OpFlushFile (file : File)
| OpDisposePage (file : File) (pageNo : PageId).

(** The state a call leaves, whether it returns or throws. *)
Definition step (o : Op) (s : State) : State :=
  match o with
  | OpReadPage f p => snd (readPage f p s)
  | OpUnPinPage f p d => snd (unPinPage f p d s)
  | OpAllocPage f => snd (allocPage f s)
  | OpFlushFile f => snd (flushFile f s)
  | OpDisposePage f p => snd (disposePage f p s)
  end.

Definition run_ops (ops : list Op) (s : State) : State :=
  foldl (fun s o => step o s) s ops.


(** ** Sample files and runs *)

Definition file1 : File := 1%nat.
Definition file2 : File := 2%nat.

(** Two files: file 1 with pages 1 to 4, file 2 with page 1. *)
Definition disk_ex : gmap (File * PageId) Page :=
  list_to_map
    [((file1, 1), mkPage 1 "A"%string); ((file1, 2), mkPage 2 "B"%string);
     ((file1, 3), mkPage 3 "C"%string); ((file1, 4), mkPage 4 "D"%string);
     ((file2, 1), mkPage 1 "X"%string)].

(** One frame; page 1 of file 1 fetched and released as modified. *)
Definition run_dirty1 : State :=
  run_ops [OpReadPage file1 1; OpUnPinPage file1 1 true] (BufMgr_new 1 disk_ex).

(** One frame; page 1 of file 1 fetched and still pinned. *)
Definition run_pinned1 : State :=
  run_ops [OpReadPage file1 1] (BufMgr_new 1 disk_ex).

(** Two frames; page 1 of file 1 fetched and still pinned. *)
Definition run_pinned2 : State :=
  run_ops [OpReadPage file1 1] (BufMgr_new 2 disk_ex).

(** Two frames; page 1 fetched and released as modified, page 2 fetched. *)
Definition run_evict2 : State :=
  run_ops [OpReadPage file1 1; OpUnPinPage file1 1 true; OpReadPage file1 2]
          (BufMgr_new 2 disk_ex).

(** Three frames; page 1 of file 2 in frame 0 (released), page 2 of file 1 in
    frame 1 (pinned), page 1 of file 1 in frame 2 (released). *)
Definition run_mixed3 : State :=
  run_ops [OpReadPage file2 1; OpUnPinPage file2 1 false; OpReadPage file1 2;
           OpReadPage file1 1; OpUnPinPage file1 1 false]
          (BufMgr_new 3 disk_ex).

(** Two frames; page 1 of file 2 (released as modified) and page 1 of file 1
    (released). *)
Definition run_two_files : State :=
  run_ops [OpReadPage file2 1; OpUnPinPage file2 1 true; OpReadPage file1 1;
           OpUnPinPage file1 1 false]
          (BufMgr_new 2 disk_ex).

(** Two frames; both pages released, file 1 flushed (which clears both frames
    and leaves the entry of file 2's page behind), then page 1 of file 2
    fetched again. *)
Definition run_stale2 : State :=
  run_ops [OpReadPage file2 1; OpUnPinPage file2 1 false; OpReadPage file1 1;
           OpUnPinPage file1 1 false; OpFlushFile file1; OpReadPage file2 1]
          (BufMgr_new 2 disk_ex).

(** Two frames; page 1 of file 2 and page 1 of file 1, both released
    unmodified. *)
Definition run_two_files_clean : State :=
  run_ops [OpReadPage file2 1; OpUnPinPage file2 1 false; OpReadPage file1 1;
           OpUnPinPage file1 1 false]
          (BufMgr_new 2 disk_ex).

(** ** Clock order *)

(** The frame [t] steps ahead of the hand. *)
Definition hand_after (s : State) (t : Z) : FrameId :=
  (clockHand s + t) mod numBufs s.

(** A frame one inspection of [allocBuf] stops on: free, or occupied with
    neither reference bit nor pin. *)
Definition candidate (s : State) (i : FrameId) : Prop :=
  valid (descAt s i) = false \/
  (refbit (descAt s i) = false /\ pinCnt (descAt s i) = 0).

(** [advanceClock] called [k] times. *)
Definition advanceClock_n (k : nat) (s : State) : State :=
  Nat.iter k (fun s => snd (advanceClock s)) s.

(** Three frames; pages 1, 2, 3 of file 1 fetched, page 2 released, page 3
    disposed of: frame 0 pinned, frame 1 unpinned with its reference bit,
    frame 2 free, the hand on frame 2. *)
Definition run_gap3 : State :=
  run_ops [OpReadPage file1 1; OpReadPage file1 2; OpReadPage file1 3;
           OpUnPinPage file1 2 false; OpDisposePage file1 3]
          (BufMgr_new 3 disk_ex).

(** * Proofs *)

(** ** Descriptor table and pool accesses *)

Lemma descAt_set_desc_eq s i d :
  (Z.to_nat i < length (bufDescTable s))%nat ->
  descAt (set_desc i d s) i = d.
Proof.
  intros Hi. unfold descAt, set_desc; simpl.
  by rewrite list_lookup_insert_eq.
Qed.

Lemma descAt_set_desc_ne s i j d :
  0 <= i -> 0 <= j -> i <> j ->
  descAt (set_desc i d s) j = descAt s j.
Proof.
  intros Hi Hj Hne. unfold descAt, set_desc; simpl.
  rewrite list_lookup_insert_ne; [done | lia].
Qed.

Lemma UINT32_MOD_eq : UINT32_MOD = 4294967296.
Proof. reflexivity. Qed.

Lemma wrap32_small z : 0 <= z < UINT32_MOD -> wrap32 z = z.
Proof. intros H. unfold wrap32. by apply Z.mod_small. Qed.

Lemma wf_frame_lt s i :
  wf s -> 0 <= i < numBufs s -> (Z.to_nat i < length (bufDescTable s))%nat.
Proof. intros Hwf Hi. rewrite (wf_descs _ Hwf). lia. Qed.

(** ** One inspection of the clock sweep *)

Lemma next_hand_range s : 0 < numBufs s -> 0 <= next_hand s < numBufs s.
Proof. intros H. unfold next_hand. by apply Z.mod_pos_bound. Qed.


(** What one inspection does, by cases on the descriptor under the hand. *)
Lemma allocBuf_inspect_eq s :
  let c := next_hand s in
  let s1 := set_clockHand c s in
  let d := descAt s c in
  allocBuf_inspect s =
    if valid d then
      if refbit d then (Ret None, set_desc c (with_refbit false d) s1)
      else if pinCnt d =? 0 then
        let s2 := if dirty d then snd (File_writePage (file d) (pageAt s c) s1) else s1 in
        let s3 := set_desc c (clear d) s2 in
        match hashTable s !! (file d, page_number (pageAt s c)) with
        | Some _ =>
            (Ret (Some c),
             set_hashTable (delete (file d, page_number (pageAt s c)) (hashTable s)) s3)
        | None => (Throw HashNotFoundException, s3)
        end
      else (Ret None, s1)
    else (Ret (Some c), s1).
Proof.
  intros c s1 d.
  unfold allocBuf_inspect, bind, advanceClock, modify, get; simpl.
  fold (next_hand s). fold c. fold s1.
  change (descAt s1 c) with d. change (pageAt s1 c) with (pageAt s c).
  destruct (valid d); [|done].
  destruct (refbit d); simpl; [done|].
  destruct (pinCnt d =? 0); [|done].
  unfold hashTable_remove, ret, File_writePage.
  destruct (dirty d); simpl;
    by destruct (hashTable s !! (file d, page_number (pageAt s c))).
Qed.

Lemma descAt_set_desc_weak s i j d :
  descAt (set_desc i d s) j = d \/ descAt (set_desc i d s) j = descAt s j.
Proof.
  unfold descAt, set_desc; simpl.
  destruct (decide (Z.to_nat i = Z.to_nat j)) as [Heq|Hne].
  - destruct (decide (Z.to_nat i < length (bufDescTable s))%nat).
    + left. rewrite Heq. rewrite list_lookup_insert_eq; [done | lia].
    + right. rewrite list_insert_ge; [done | lia].
  - right. by rewrite list_lookup_insert_ne.
Qed.

(** ** Setters keep states well-formed *)

Lemma wf_set_clockHand s c :
  wf s -> (0 < numBufs s -> 0 <= c < numBufs s) -> wf (set_clockHand c s).
Proof. intros [] Hc. by constructor. Qed.

Lemma wf_set_desc s i d :
  wf s -> 0 <= pinCnt d -> wf (set_desc i d s).
Proof.
  intros Hwf Hd. pose proof Hwf as [].
  constructor; try done.
  - simpl. by rewrite length_insert.
  - intros j. destruct (descAt_set_desc_weak s i j d) as [-> | ->]; auto.
Qed.

Lemma wf_set_page s i p : wf s -> wf (set_page i p s).
Proof.
  intros []. constructor; try done. simpl. by rewrite length_insert.
Qed.

Lemma wf_set_files s d e : wf s -> wf (set_files d e s).
Proof. intros []. by constructor. Qed.

Lemma wf_set_hashTable s h :
  wf s -> (forall k frame, h !! k = Some frame -> 0 <= frame < numBufs s) ->
  wf (set_hashTable h s).
Proof. intros [] Hh. by constructor. Qed.

Lemma wf_hash_delete s k :
  wf s -> wf (set_hashTable (delete k (hashTable s)) s).
Proof.
  intros Hwf. apply wf_set_hashTable; [done|].
  intros k' fr Hk'. apply lookup_delete_Some in Hk' as [_ Hk'].
  by apply (wf_hash _ Hwf k').
Qed.

(** ** The sweep relation *)

Lemma sweep_rel_refl s : sweep_rel s s.
Proof. by repeat split. Qed.

Lemma sweep_rel_trans s1 s2 s3 :
  sweep_rel s1 s2 -> sweep_rel s2 s3 -> sweep_rel s1 s3.
Proof.
  intros (A1 & A2 & A3 & A4 & A5 & A6 & A7) (B1 & B2 & B3 & B4 & B5 & B6 & B7).
  repeat split; try congruence.
  - destruct (A7 i) as [E1 _], (B7 i) as [E2 _]. congruence.
  - intros H. destruct (A7 i) as [_ E1], (B7 i) as [_ E2]. auto.
Qed.

Lemma sweep_rel_fields s s' i :
  sweep_rel s s' ->
  valid (descAt s' i) = valid (descAt s i) /\
  pinCnt (descAt s' i) = pinCnt (descAt s i) /\
  dirty (descAt s' i) = dirty (descAt s i) /\
  file (descAt s' i) = file (descAt s i) /\
  pageNo (descAt s' i) = pageNo (descAt s i) /\
  pageAt s' i = pageAt s i.
Proof.
  intros (_ & _ & Hp & _ & _ & _ & Hd). destruct (Hd i) as [E _].
  unfold with_refbit in E. injection E as E1 E2 E3 E4 E5 E6.
  unfold pageAt. rewrite Hp. by repeat split.
Qed.

Lemma sweep_rel_set_clockHand s c : sweep_rel s (set_clockHand c s).
Proof. by repeat split. Qed.

Lemma sweep_rel_clear_refbit s c :
  sweep_rel s (set_desc c (with_refbit false (descAt s c)) s).
Proof.
  assert (forall i,
    with_refbit false (descAt (set_desc c (with_refbit false (descAt s c)) s) i)
      = with_refbit false (descAt s i) /\
    (refbit (descAt (set_desc c (with_refbit false (descAt s c)) s) i) = true ->
     refbit (descAt s i) = true)) as Hd.
  { intros i. unfold descAt, set_desc; simpl.
    destruct (decide (Z.to_nat c = Z.to_nat i)) as [Hci|Hci].
    - rewrite Hci.
      destruct (bufDescTable s !! Z.to_nat i) as [x|] eqn:Hl.
      + rewrite list_lookup_insert_eq by (by eapply lookup_lt_Some).
        simpl. split; [done | discriminate].
      + rewrite list_insert_ge by (by apply lookup_ge_None_1).
        by rewrite Hl.
    - by rewrite list_lookup_insert_ne. }
  repeat split; simpl; try done; try apply Hd.
  by rewrite length_insert.
Qed.

(** ** Outcomes of one inspection *)

Lemma allocBuf_inspect_None s s' :
  allocBuf_inspect s = (Ret None, s') ->
  let c := next_hand s in
  let d := descAt s c in
  valid d = true /\
  ((refbit d = true /\
    s' = set_desc c (with_refbit false d) (set_clockHand c s)) \/
   (refbit d = false /\ pinCnt d <> 0 /\ s' = set_clockHand c s)).
Proof.
  rewrite allocBuf_inspect_eq. intros H c d. fold c d in H.
  destruct (valid d); [|done]. split; [done|].
  destruct (refbit d).
  - left. by inversion H.
  - right. destruct (pinCnt d =? 0) eqn:Hp.
    + simpl in H.
      by destruct (hashTable s !! (file d, page_number (pageAt s c))).
    + apply Z.eqb_neq in Hp. by inversion H.
Qed.

Lemma allocBuf_inspect_Some s frame s' :
  allocBuf_inspect s = (Ret (Some frame), s') ->
  let d := descAt s frame in
  let key := (file d, page_number (pageAt s frame)) in
  frame = next_hand s /\
  ((valid d = false /\ s' = set_clockHand frame s) \/
   (valid d = true /\ refbit d = false /\ pinCnt d = 0 /\
    is_Some (hashTable s !! key) /\
    s' = set_hashTable (delete key (hashTable s))
           (set_desc frame (clear d)
              (if dirty d
               then snd (File_writePage (file d) (pageAt s frame) (set_clockHand frame s))
               else set_clockHand frame s)))).
Proof.
  rewrite allocBuf_inspect_eq. simpl.
  destruct (valid (descAt s (next_hand s))) eqn:Hv.
  - destruct (refbit (descAt s (next_hand s))) eqn:Hr; [done|].
    destruct (pinCnt (descAt s (next_hand s)) =? 0) eqn:Hp; [|done].
    destruct (hashTable s !! _) eqn:Hh; [|done].
    intros H. inversion H; subst frame. split; [done|]. right.
    rewrite Hv, Hr, Hh. apply Z.eqb_eq in Hp. by repeat split.
  - intros H. inversion H; subst frame. split; [done|]. left. by rewrite Hv.
Qed.

Lemma allocBuf_inspect_Throw s e s' :
  allocBuf_inspect s = (Throw e, s') ->
  let c := next_hand s in
  let d := descAt s c in
  e = HashNotFoundException /\
  valid d = true /\ refbit d = false /\ pinCnt d = 0 /\
  hashTable s !! (file d, page_number (pageAt s c)) = None /\
  s' = set_desc c (clear d)
         (if dirty d
          then snd (File_writePage (file d) (pageAt s c) (set_clockHand c s))
          else set_clockHand c s).
Proof.
  rewrite allocBuf_inspect_eq. simpl.
  destruct (valid (descAt s (next_hand s))) eqn:Hv; [|done].
  destruct (refbit (descAt s (next_hand s))) eqn:Hr; [done|].
  destruct (pinCnt (descAt s (next_hand s)) =? 0) eqn:Hp; [|done].
  destruct (hashTable s !! _) eqn:Hh; [done|].
  intros H. inversion H. apply Z.eqb_eq in Hp. by repeat split.
Qed.

Lemma allocBuf_inspect_fuel s s' : allocBuf_inspect s <> (OutOfFuel, s').
Proof.
  rewrite allocBuf_inspect_eq. simpl.
  destruct (valid _); [|done]. destruct (refbit _); [done|].
  destruct (pinCnt _ =? 0); [|done]. by destruct (hashTable s !! _).
Qed.

Lemma allocBuf_inspect_sweep s s' :
  allocBuf_inspect s = (Ret None, s') ->
  sweep_rel s s' /\ clockHand s' = next_hand s.
Proof.
  intros H. apply allocBuf_inspect_None in H as [_ [(_ & ->) | (_ & _ & ->)]].
  - split; [|done].
    eapply sweep_rel_trans; [apply (sweep_rel_set_clockHand s (next_hand s))|].
    apply (sweep_rel_clear_refbit (set_clockHand (next_hand s) s)).
  - split; [apply sweep_rel_set_clockHand | done].
Qed.

Lemma allocBuf_inspect_wf s r s' :
  wf s -> 0 < numBufs s -> allocBuf_inspect s = (r, s') -> wf s'.
Proof.
  intros Hwf Hn H.
  assert (wf (set_clockHand (next_hand s) s)) as Hwf1.
  { apply wf_set_clockHand; [done|]. intros _. by apply next_hand_range. }
  assert (wf (if dirty (descAt s (next_hand s))
              then snd (File_writePage (file (descAt s (next_hand s)))
                          (pageAt s (next_hand s)) (set_clockHand (next_hand s) s))
              else set_clockHand (next_hand s) s)) as Hwf2.
  { destruct (dirty _); [|done]. simpl. by apply wf_set_files. }
  destruct r as [[frame|]|e|].
  - apply allocBuf_inspect_Some in H
      as [-> [(_ & ->) | (_ & _ & _ & _ & ->)]]; [done|].
    apply wf_set_hashTable; [by apply wf_set_desc|].
    intros k' fr Hk'. apply lookup_delete_Some in Hk' as [_ Hk'].
    destruct (dirty _); simpl; by apply (wf_hash _ Hwf k').
  - apply allocBuf_inspect_None in H as [_ [(_ & ->) | (_ & _ & ->)]]; [|done].
    apply wf_set_desc; [done|]. simpl. apply (wf_pins _ Hwf).
  - apply allocBuf_inspect_Throw in H as (_ & _ & _ & _ & _ & ->).
    by apply wf_set_desc.
  - by apply allocBuf_inspect_fuel in H.
Qed.

(** ** The search loop *)

Lemma allocBuf_loop_wf fuel : forall count s c' r s',
  wf s -> 0 < numBufs s ->
  allocBuf_loop fuel count s = (c', (r, s')) -> wf s'.
Proof.
  induction fuel as [|fuel IH]; intros count s c' r s' Hwf Hn H; simpl in H.
  - by inversion H; subst.
  - destruct (wrap32 (numBufs s * 2) <? count); [by inversion H; subst|].
    destruct (allocBuf_inspect s) as [[[frame|]|e|] s1] eqn:Hi;
      try (inversion H; subst; by eapply allocBuf_inspect_wf).
    pose proof (allocBuf_inspect_wf _ _ _ Hwf Hn Hi).
    apply allocBuf_inspect_sweep in Hi as [(Hn1 & _) _].
    eapply IH; [done | lia | done].
Qed.

(** A frame the loop returns was selected by one inspection, in a state
    that differs from the initial one by the sweep only. *)
Lemma allocBuf_loop_Ret fuel : forall count s c' frame s',
  allocBuf_loop fuel count s = (c', (Ret frame, s')) ->
  exists s1, sweep_rel s s1 /\ allocBuf_inspect s1 = (Ret (Some frame), s').
Proof.
  induction fuel as [|fuel IH]; intros count s c' frame s' H; simpl in H; [done|].
  destruct (wrap32 (numBufs s * 2) <? count); [done|].
  destruct (allocBuf_inspect s) as [[[fr|]|e|] s1] eqn:Hi; try done.
  - inversion H; subst. exists s. split; [apply sweep_rel_refl | done].
  - apply IH in H as (s2 & Hrel & Hsel).
    apply allocBuf_inspect_sweep in Hi as [Hrel1 _].
    exists s2. split; [by eapply sweep_rel_trans | done].
Qed.

Lemma all_pinned_sweep s s' : sweep_rel s s' -> all_pinned s -> all_pinned s'.
Proof.
  intros Hrel Hall i Hi.
  destruct (sweep_rel_fields s s' i Hrel) as (-> & -> & _).
  apply Hall. destruct Hrel as (<- & _). done.
Qed.

Lemma allocBuf_inspect_all_pinned s :
  0 < numBufs s -> all_pinned s ->
  exists s1, allocBuf_inspect s = (Ret None, s1).
Proof.
  intros Hn Hall. rewrite allocBuf_inspect_eq. simpl.
  destruct (Hall (next_hand s) (next_hand_range s Hn)) as [-> Hp].
  apply Z.eqb_neq in Hp. rewrite Hp.
  destruct (refbit _); eauto.
Qed.

(** With every frame occupied and pinned the loop runs until [count]
    passes the bound, and throws there. *)
Lemma allocBuf_loop_all_pinned fuel : forall count s,
  0 < numBufs s -> numBufs s * 2 < UINT32_MOD -> all_pinned s ->
  1 <= count <= numBufs s * 2 + 1 ->
  (Z.to_nat (numBufs s * 2 + 1 - count) < fuel)%nat ->
  exists s',
    allocBuf_loop fuel count s
      = (numBufs s * 2 + 1, (Throw BufferExceededException, s')) /\
    sweep_rel s s'.
Proof.
  pose proof UINT32_MOD_eq as HM.
  induction fuel as [|fuel IH]; intros count s Hn Hb Hall Hc Hf; [lia|].
  simpl. rewrite (wrap32_small (numBufs s * 2)) by lia.
  destruct (numBufs s * 2 <? count) eqn:Hlt.
  - apply Z.ltb_lt in Hlt. assert (count = numBufs s * 2 + 1) as -> by lia.
    exists s. split; [done | apply sweep_rel_refl].
  - apply Z.ltb_ge in Hlt.
    destruct (allocBuf_inspect_all_pinned s Hn Hall) as [s1 Hi]. rewrite Hi.
    apply allocBuf_inspect_sweep in Hi as [Hrel _].
    pose proof Hrel as (Hn1 & _).
    rewrite (wrap32_small (count + 1)) by lia.
    destruct (IH (count + 1) s1) as (s' & He & Hrel');
      [lia | lia | by eapply all_pinned_sweep | lia | lia |].
    rewrite Hn1 in He. exists s'. split; [done | by eapply sweep_rel_trans].
Qed.


(** ** [allocBuf] *)


Lemma allocBuf_empty_pool s :
  numBufs s = 0 ->
  allocBuf_loop (allocBuf_fuel s) 1 s = (1, (Throw BufferExceededException, s)).
Proof.
  intros Hn. unfold allocBuf_fuel. rewrite Hn.
  change (S (Z.to_nat (wrap32 (0 * 2)))) with 1%nat.
  simpl. by rewrite Hn.
Qed.

Lemma allocBuf_all_pinned s :
  wf s -> numBufs s * 2 < UINT32_MOD -> all_pinned s ->
  exists s',
    allocBuf_loop (allocBuf_fuel s) 1 s
      = (numBufs s * 2 + 1, (Throw BufferExceededException, s')) /\
    sweep_rel s s'.
Proof.
  intros Hwf Hb Hall. pose proof (wf_numBufs _ Hwf) as Hn.
  destruct (decide (numBufs s = 0)) as [Hz|Hz].
  - rewrite allocBuf_empty_pool by done. rewrite Hz. simpl.
    exists s. split; [done | apply sweep_rel_refl].
  - apply allocBuf_loop_all_pinned; try done; try lia.
    unfold allocBuf_fuel. rewrite wrap32_small by lia. lia.
Qed.


Lemma allocBuf_wf s r s' : wf s -> allocBuf s = (r, s') -> wf s'.
Proof.
  intros Hwf H. unfold allocBuf in H.
  destruct (allocBuf_loop (allocBuf_fuel s) 1 s) as [c' [r' s'']] eqn:He.
  simpl in H. inversion H; subst.
  pose proof (wf_numBufs _ Hwf).
  destruct (decide (numBufs s = 0)) as [Hz|Hz].
  - rewrite allocBuf_empty_pool in He by done. by inversion He; subst.
  - eapply allocBuf_loop_wf; [done | lia | done].
Qed.

Lemma allocBuf_Ret s frame s' :
  wf s -> allocBuf s = (Ret frame, s') ->
  0 <= frame < numBufs s /\
  exists s1, sweep_rel s s1 /\ allocBuf_inspect s1 = (Ret (Some frame), s').
Proof.
  intros Hwf H. unfold allocBuf in H.
  destruct (allocBuf_loop (allocBuf_fuel s) 1 s) as [c' [r' s'']] eqn:He.
  simpl in H. inversion H; subst.
  pose proof (wf_numBufs _ Hwf).
  destruct (decide (numBufs s = 0)) as [Hz|Hz].
  { rewrite allocBuf_empty_pool in He by done. by inversion He. }
  apply allocBuf_loop_Ret in He as (s1 & Hrel & Hsel).
  split; [|by exists s1].
  apply allocBuf_inspect_Some in Hsel as [-> _].
  destruct Hrel as (Hn & _). rewrite <- Hn. apply next_hand_range. lia.
Qed.

Lemma allocBuf_loop_hash fuel : forall count s c' r s' k,
  allocBuf_loop fuel count s = (c', (r, s')) ->
  hashTable s !! k = None -> hashTable s' !! k = None.
Proof.
  induction fuel as [|fuel IH]; intros count s c' r s' k H Hk; simpl in H.
  - by inversion H; subst.
  - destruct (wrap32 (numBufs s * 2) <? count); [by inversion H; subst|].
    destruct (allocBuf_inspect s) as [[[frame|]|e|] s1] eqn:Hi.
    + inversion H; subst.
      apply allocBuf_inspect_Some in Hi
        as [_ [(_ & ->) | (_ & _ & _ & _ & ->)]]; [done|].
      simpl. by apply lookup_delete_None; right.
    + apply allocBuf_inspect_sweep in Hi as [(_ & Hh & _) _].
      eapply IH; [done | by rewrite Hh].
    + inversion H; subst.
      apply allocBuf_inspect_Throw in Hi as (_ & _ & _ & _ & _ & ->).
      by destruct (dirty _).
    + by apply allocBuf_inspect_fuel in Hi.
Qed.

Lemma allocBuf_hash_None s r s' k :
  allocBuf s = (r, s') -> hashTable s !! k = None -> hashTable s' !! k = None.
Proof.
  unfold allocBuf. intros H.
  destruct (allocBuf_loop (allocBuf_fuel s) 1 s) as [c' [r' s'']] eqn:He.
  simpl in H. inversion H; subst. by eapply allocBuf_loop_hash.
Qed.

Lemma allocBuf_inspect_frame s r s' :
  allocBuf_inspect s = (r, s') ->
  numBufs s' = numBufs s /\ bufPool s' = bufPool s.
Proof.
  rewrite allocBuf_inspect_eq. simpl.
  destruct (valid _); [|by intros H; inversion H].
  destruct (refbit _); [by intros H; inversion H|].
  destruct (pinCnt _ =? 0); [|by intros H; inversion H].
  destruct (hashTable s !! _); intros H; inversion H; by destruct (dirty _).
Qed.

Lemma allocBuf_loop_frame fuel : forall count s c' r s',
  allocBuf_loop fuel count s = (c', (r, s')) ->
  numBufs s' = numBufs s /\ bufPool s' = bufPool s.
Proof.
  induction fuel as [|fuel IH]; intros count s c' r s' H; simpl in H.
  - by inversion H; subst.
  - destruct (wrap32 (numBufs s * 2) <? count); [by inversion H; subst|].
    destruct (allocBuf_inspect s) as [[[frame|]|e|] s1] eqn:Hi;
      apply allocBuf_inspect_frame in Hi as [Hn Hp];
      try (by inversion H; subst).
    apply IH in H as [Hn' Hp']. split; congruence.
Qed.

Lemma allocBuf_frame s r s' :
  allocBuf s = (r, s') -> numBufs s' = numBufs s /\ bufPool s' = bufPool s.
Proof.
  unfold allocBuf. intros H.
  destruct (allocBuf_loop (allocBuf_fuel s) 1 s) as [c' [r' s'']] eqn:He.
  simpl in H. inversion H; subst. by eapply allocBuf_loop_frame.
Qed.

(** The search always ends: the fuel given to the loop is never used up,
    whatever the state. *)
Lemma allocBuf_loop_terminates fuel : forall count s,
  1 <= count ->
  (Z.to_nat (wrap32 (numBufs s * 2) + 1 - count) < fuel)%nat ->
  fst (snd (allocBuf_loop fuel count s)) <> OutOfFuel.
Proof.
  pose proof UINT32_MOD_eq as HM.
  induction fuel as [|fuel IH]; intros count s Hc Hf; [lia|].
  assert (0 <= wrap32 (numBufs s * 2) <= UINT32_MOD - 2) as HB.
  { unfold wrap32. rewrite HM.
    replace (numBufs s * 2) with (2 * numBufs s) by lia.
    change 4294967296 with (2 * 2147483648).
    rewrite Z.mul_mod_distr_l by lia.
    pose proof (Z.mod_pos_bound (numBufs s) 2147483648 ltac:(lia)). lia. }
  simpl. destruct (wrap32 (numBufs s * 2) <? count) eqn:Hlt; [done|].
  apply Z.ltb_ge in Hlt.
  destruct (allocBuf_inspect s) as [[[frame|]|e|] s1] eqn:Hi; try done.
  - apply allocBuf_inspect_frame in Hi as [Hn _].
    rewrite (wrap32_small (count + 1)) by lia.
    apply IH; [lia|]. rewrite Hn. lia.
  - by apply allocBuf_inspect_fuel in Hi.
Qed.

Lemma allocBuf_terminates s : fst (allocBuf s) <> OutOfFuel.
Proof.
  unfold allocBuf. apply allocBuf_loop_terminates; [lia|].
  unfold allocBuf_fuel. lia.
Qed.

(** ** The constructor *)

Lemma descAt_BufMgr_new bufs d i :
  exists k, descAt (BufMgr_new bufs d) i = BufDesc_init k /\ (0 <= i -> k = i).
Proof.
  unfold descAt, BufMgr_new; simpl. rewrite list_lookup_fmap.
  match goal with |- context [_ <$> ?o] => destruct o as [j|] eqn:Hl end;
    [|exists i; split; [reflexivity | intros; reflexivity]].
  apply lookup_seqZ in Hl as [-> Hl]. simpl.
  exists (0 + Z.of_nat (Z.to_nat i)). split; [done | lia].
Qed.

Lemma wf_BufMgr_new bufs d :
  0 <= bufs < UINT32_MOD -> wf (BufMgr_new bufs d).
Proof.
  intros Hb. constructor; simpl.
  - done.
  - by rewrite length_fmap, length_seqZ.
  - by rewrite length_replicate.
  - intros Hn. rewrite wrap32_small by lia. lia.
  - intros k frame H. by rewrite lookup_empty in H.
  - intros i. destruct (descAt_BufMgr_new bufs d i) as (k & -> & _). done.
Qed.

(** ** [readPage] *)

Lemma readPage_hit file pageNo s frame :
  hashTable s !! (file, pageNo) = Some frame ->
  readPage file pageNo s =
    (Ret frame,
     set_desc frame
       (with_pinCnt (pinCnt (descAt s frame) + 1)
          (with_refbit true (descAt s frame))) s).
Proof.
  intros H. unfold readPage, try_catch_HashNotFound, bind, hashTable_lookup.
  by rewrite H.
Qed.

Lemma readPage_miss file pageNo s :
  hashTable s !! (file, pageNo) = None ->
  readPage file pageNo s =
    match allocBuf s with
    | (Ret frame, s1) =>
        match disk s1 !! (file, pageNo) with
        | Some pg =>
            let s2 := set_page frame pg
                        (set_files (disk s1) (io s1 ++ [EvRead file pageNo]) s1) in
            match hashTable s1 !! (file, pageNo) with
            | Some _ => (Throw HashAlreadyPresentException, s2)
            | None =>
                (Ret frame,
                 set_desc frame (Set_ file pageNo (descAt s1 frame))
                   (set_hashTable (<[(file, pageNo) := frame]> (hashTable s1)) s2))
            end
        | None => (Throw (InvalidPageException pageNo), s1)
        end
    | (Throw e, s1) => (Throw e, s1)
    | (OutOfFuel, s1) => (OutOfFuel, s1)
    end.
Proof.
  intros H. unfold readPage, try_catch_HashNotFound, hashTable_lookup.
  unfold bind at 1. rewrite H. unfold bind at 1.
  destruct (allocBuf s) as [[frame|e|] s1]; try done.
  unfold bind at 1, File_readPage.
  destruct (disk s1 !! (file, pageNo)) as [pg|]; [|done].
  unfold bind, modify, hashTable_insert, get, ret; simpl.
  by destruct (hashTable s1 !! (file, pageNo)).
Qed.

Lemma readPage_wf file pageNo s r s' :
  wf s -> readPage file pageNo s = (r, s') -> wf s'.
Proof.
  intros Hwf. destruct (hashTable s !! (file, pageNo)) as [frame|] eqn:Hh.
  - rewrite (readPage_hit _ _ _ _ Hh). intros H; inversion H; subst.
    apply wf_set_desc; [done|]. simpl. pose proof (wf_pins _ Hwf frame). lia.
  - rewrite (readPage_miss _ _ _ Hh).
    destruct (allocBuf s) as [[frame|e|] s1] eqn:Ha;
      pose proof (allocBuf_wf _ _ _ Hwf Ha) as Hwf1;
      try (by intros H; inversion H; subst).
    pose proof (allocBuf_frame _ _ _ Ha) as [Hn _].
    apply allocBuf_Ret in Ha as [Hfr _]; [|done].
    destruct (disk s1 !! (file, pageNo)) as [pg|];
      [|by intros H; inversion H; subst].
    assert (wf (set_page frame pg
                  (set_files (disk s1) (io s1 ++ [EvRead file pageNo]) s1)))
      as Hwf2 by (by apply wf_set_page, wf_set_files).
    simpl. destruct (hashTable s1 !! (file, pageNo));
      intros H; inversion H; subst; [done|].
    apply wf_set_desc; [|done].
    apply wf_set_hashTable; [done|].
    intros k' fr Hk'. simpl in Hk' |- *.
    apply lookup_insert_Some in Hk' as [[_ <-] | [_ Hk']]; [lia|].
    by apply (wf_hash _ Hwf1 k').
Qed.

(** ** [unPinPage] *)

Lemma unPinPage_eq file pageNo dirty_ s :
  unPinPage file pageNo dirty_ s =
    match hashTable s !! (file, pageNo) with
    | None => (Throw HashNotFoundException, s)
    | Some frame =>
        let d := descAt s frame in
        if pinCnt d =? 0 then (Throw (PageNotPinnedException pageNo frame), s)
        else (Ret tt,
              set_desc frame
                (with_pinCnt (pinCnt d - 1) (with_dirty (dirty_ || dirty d) d)) s)
    end.
Proof.
  unfold unPinPage, bind, hashTable_lookup.
  destruct (hashTable s !! (file, pageNo)) as [frame|]; [|done].
  simpl. destruct (pinCnt (descAt s frame) =? 0); [done|].
  unfold modify. destruct dirty_; [done|]. simpl.
  unfold with_dirty, with_pinCnt. by destruct (descAt s frame).
Qed.

Lemma unPinPage_wf file pageNo dirty_ s r s' :
  wf s -> unPinPage file pageNo dirty_ s = (r, s') -> wf s'.
Proof.
  intros Hwf. rewrite unPinPage_eq.
  destruct (hashTable s !! (file, pageNo)) as [frame|];
    [|by intros H; inversion H; subst].
  simpl. destruct (pinCnt (descAt s frame) =? 0) eqn:Hp;
    intros H; inversion H; subst; [done|].
  apply wf_set_desc; [done|]. simpl.
  apply Z.eqb_neq in Hp. pose proof (wf_pins _ Hwf frame). lia.
Qed.

(** ** [flushFile] *)

Lemma flushFile_body_eq file i s :
  flushFile_body file i s =
    let d := descAt s i in
    if negb (pinCnt d =? 0) then
      (Throw (PagePinnedException (page_number (pageAt s i)) i), s)
    else if negb (valid d) then
      (Throw (BadBufferException i (dirty d) (valid d) (refbit d)), s)
    else (Ret tt, flush_one file i s).
Proof.
  unfold flushFile_body, bind, get; simpl.
  destruct (negb (pinCnt (descAt s i) =? 0)); [done|].
  destruct (negb (valid (descAt s i))); [done|].
  unfold flush_one, try_catch_HashNotFound, hashTable_remove, File_writePage,
    ret, modify.
  destruct (dirty (descAt s i)); simpl.
  - destruct (hashTable s !! (file, page_number (pageAt s i))) eqn:Hh; [done|].
    rewrite delete_id by done. by destruct s.
  - destruct (hashTable s !! (file, page_number (pageAt s i))) eqn:Hh; [done|].
    rewrite delete_id by done. by destruct s.
Qed.

Lemma flush_one_fields file i s :
  numBufs (flush_one file i s) = numBufs s /\
  bufPool (flush_one file i s) = bufPool s /\
  clockHand (flush_one file i s) = clockHand s /\
  hashTable (flush_one file i s)
    = delete (file, page_number (pageAt s i)) (hashTable s) /\
  io (flush_one file i s) = io s ++ flush_writes file s [i].
Proof.
  unfold flush_one, flush_writes; simpl.
  destruct (dirty (descAt s i)); simpl; repeat split; try done.
  by rewrite app_nil_r.
Qed.

Lemma flush_one_desc file i s j :
  wf s -> 0 <= i < numBufs s -> 0 <= j ->
  descAt (flush_one file i s) j
    = if decide (j = i) then clear (descAt s i) else descAt s j.
Proof.
  intros Hwf Hi Hj. unfold flush_one.
  set (s1 := set_hashTable _ _).
  assert (bufDescTable s1 = bufDescTable s) as Ht
    by (unfold s1; by destruct (dirty _)).
  destruct (decide (j = i)) as [->|Hne].
  - rewrite descAt_set_desc_eq; [done|].
    rewrite Ht. by apply wf_frame_lt.
  - rewrite descAt_set_desc_ne by lia. unfold descAt. by rewrite Ht.
Qed.

Lemma flush_one_wf file i s : wf s -> wf (flush_one file i s).
Proof.
  intros Hwf. unfold flush_one. apply wf_set_desc; [|done].
  destruct (dirty _).
  - apply (wf_hash_delete (set_files _ _ s)). by apply wf_set_files.
  - by apply wf_hash_delete.
Qed.

Lemma flush_writes_ext file s s' js :
  (forall j, j ∈ js -> descAt s' j = descAt s j /\ pageAt s' j = pageAt s j) ->
  flush_writes file s' js = flush_writes file s js.
Proof.
  induction js as [|j js IH]; intros H; [done|].
  unfold flush_writes in *. simpl.
  destruct (H j) as [-> ->]; [by left|].
  f_equal. apply IH. intros j' Hj'. apply H. by right.
Qed.

Lemma flush_writes_app file s js1 js2 :
  flush_writes file s (js1 ++ js2)
    = flush_writes file s js1 ++ flush_writes file s js2.
Proof. unfold flush_writes. apply flat_map_app. Qed.

(** What flushing the frames [i, i + n) does to a state. *)
Lemma flush_frames_spec file (n : nat) : forall i s,
  wf s -> 0 <= i -> i + Z.of_nat n <= numBufs s ->
  let s' := flush_frames file (seqZ i (Z.of_nat n)) s in
  wf s' /\
  numBufs s' = numBufs s /\ bufPool s' = bufPool s /\
  clockHand s' = clockHand s /\
  (forall j, 0 <= j ->
     descAt s' j = if decide (i <= j < i + Z.of_nat n)
                   then clear (descAt s j) else descAt s j) /\
  io s' = io s ++ flush_writes file s (seqZ i (Z.of_nat n)) /\
  (forall j, i <= j < i + Z.of_nat n ->
     hashTable s' !! (file, page_number (pageAt s j)) = None) /\
  (forall key,
     (forall j, i <= j < i + Z.of_nat n -> key <> (file, page_number (pageAt s j))) ->
     hashTable s' !! key = hashTable s !! key) /\
  (forall key frame, hashTable s' !! key = Some frame ->
     hashTable s !! key = Some frame).
Proof.
  induction n as [|n IH]; intros i s Hwf Hi Hn.
  - simpl. split; [done|]. split_and!; try done.
    + intros j Hj. case_decide; [lia | done].
    + by rewrite app_nil_r.
    + intros j Hj. lia.
  - rewrite seqZ_cons by lia.
    replace (Z.pred (Z.of_nat (S n))) with (Z.of_nat n) by lia.
    replace (Z.succ i) with (i + 1) by lia.
    intros s'. unfold flush_frames in s'. simpl in s'.
    fold (flush_frames file (seqZ (i + 1) (Z.of_nat n)) (flush_one file i s)) in s'.
    pose proof (flush_one_fields file i s) as (F1 & F2 & F3 & F4 & F5).
    pose proof (flush_one_wf file i s Hwf) as Hwf1.
    destruct (IH (i + 1) (flush_one file i s)) as
      (G0 & G1 & G2 & G3 & G4 & G5 & G6 & G7 & G8); [done | lia | lia |].
    fold s' in G0, G1, G2, G3, G4, G5, G6, G7, G8.
    assert (forall j, pageAt (flush_one file i s) j = pageAt s j) as Hpg
      by (intros j; unfold pageAt; by rewrite F2).
    split; [done|]. split_and!; try congruence.
    + intros j Hj. rewrite G4 by done.
      rewrite !flush_one_desc by (done || lia).
      repeat case_decide; try lia; try done.
      subst j. done.
    + rewrite G5, F5, <- app_assoc. f_equal.
      change (flush_writes file s (i :: seqZ (i + 1) (Z.of_nat n)))
        with (flush_writes file s ([i] ++ seqZ (i + 1) (Z.of_nat n))).
      rewrite flush_writes_app. f_equal.
      apply flush_writes_ext. intros j Hj. split; [|done].
      apply elem_of_seqZ in Hj.
      rewrite flush_one_desc by (done || lia). case_decide; [lia | done].
    + intros j Hj. destruct (decide (j = i)) as [->|Hne].
      * destruct (hashTable s' !! _) as [fr|] eqn:Hl; [|done].
        apply G8 in Hl. rewrite F4 in Hl. by rewrite lookup_delete_eq in Hl.
      * rewrite <- (Hpg j). apply G6. lia.
    + intros key Hkey. rewrite G7.
      * rewrite F4. apply lookup_delete_ne. intros Heq. by apply (Hkey i); [lia|].
      * intros j Hj. rewrite Hpg. apply Hkey. lia.
    + intros key frame Hl. apply G8 in Hl. rewrite F4 in Hl.
      by apply lookup_delete_Some in Hl as [_ Hl].
Qed.

(** While the frames are occupied and unpinned the loop flushes them. *)
Lemma flushFile_loop_split file (k : nat) : forall (n : nat) i s,
  wf s -> 0 <= i -> i + Z.of_nat k <= numBufs s -> (k <= n)%nat ->
  (forall j, i <= j < i + Z.of_nat k ->
     pinCnt (descAt s j) = 0 /\ valid (descAt s j) = true) ->
  flushFile_loop file n i s
    = flushFile_loop file (n - k) (i + Z.of_nat k)
        (flush_frames file (seqZ i (Z.of_nat k)) s).
Proof.
  induction k as [|k IH]; intros n i s Hwf Hi Hk Hn Hok.
  - simpl. by rewrite Nat.sub_0_r, Z.add_0_r.
  - destruct n as [|n]; [lia|].
    rewrite seqZ_cons by lia.
    replace (Z.pred (Z.of_nat (S k))) with (Z.of_nat k) by lia.
    replace (Z.succ i) with (i + 1) by lia.
    simpl flushFile_loop. unfold bind at 1. rewrite flushFile_body_eq.
    destruct (Hok i) as [Hp Hv]; [lia|]. simpl. rewrite Hp, Hv. simpl.
    rewrite (IH n (i + 1) (flush_one file i s)).
    + f_equal. lia.
    + by apply flush_one_wf.
    + lia.
    + destruct (flush_one_fields file i s) as (-> & _). lia.
    + lia.
    + intros j Hj. rewrite flush_one_desc by (done || lia).
      case_decide; [lia|]. apply Hok. lia.
Qed.

Lemma flushFile_loop_wf file (n : nat) : forall i s r s',
  wf s -> flushFile_loop file n i s = (r, s') -> wf s'.
Proof.
  induction n as [|n IH]; intros i s r s' Hwf H; simpl in H.
  - by inversion H; subst.
  - unfold bind in H. rewrite flushFile_body_eq in H. simpl in H.
    destruct (negb (pinCnt (descAt s i) =? 0)); [by inversion H; subst|].
    destruct (negb (valid (descAt s i))); [by inversion H; subst|].
    eapply IH; [|done]. by apply flush_one_wf.
Qed.

Lemma flushFile_wf file s r s' : wf s -> flushFile file s = (r, s') -> wf s'.
Proof. intros Hwf H. by eapply flushFile_loop_wf. Qed.

(** The first frame that is pinned or free decides how [flushFile] ends. *)
Lemma flushFile_stops file s k :
  wf s -> 0 <= k < numBufs s ->
  (forall j, 0 <= j < k -> pinCnt (descAt s j) = 0 /\ valid (descAt s j) = true) ->
  pinCnt (descAt s k) <> 0 \/ valid (descAt s k) = false ->
  flushFile file s =
    (Throw (if pinCnt (descAt s k) =? 0
            then BadBufferException k (dirty (descAt s k)) (valid (descAt s k))
                   (refbit (descAt s k))
            else PagePinnedException (page_number (pageAt s k)) k),
     flush_frames file (seqZ 0 k) s).
Proof.
  intros Hwf Hk Hok Hstop. unfold flushFile.
  rewrite (flushFile_loop_split file (Z.to_nat k) (Z.to_nat (numBufs s)) 0 s);
    try done; try lia.
  2: { intros j Hj. apply Hok. lia. }
  rewrite Z2Nat.id by lia. rewrite Z.add_0_l.
  destruct (flush_frames_spec file (Z.to_nat k) 0 s Hwf) as
    (_ & _ & G2 & _ & G4 & _); [lia | lia |].
  rewrite Z2Nat.id in G2, G4 by lia.
  destruct (Z.to_nat (numBufs s) - Z.to_nat k)%nat as [|m] eqn:Hm; [lia|].
  simpl. unfold bind. rewrite flushFile_body_eq. simpl.
  rewrite G4 by lia. rewrite decide_False by lia.
  unfold pageAt. rewrite G2.
  destruct (pinCnt (descAt s k) =? 0) eqn:Hp; [|done]. simpl.
  apply Z.eqb_eq in Hp. destruct Hstop as [Hs|Hs]; [done|]. by rewrite Hs.
Qed.

Lemma flushFile_ok file s :
  wf s -> all_flushable s ->
  flushFile file s = (Ret tt, flush_frames file (seqZ 0 (numBufs s)) s).
Proof.
  intros Hwf Hok. pose proof (wf_numBufs _ Hwf). unfold flushFile.
  rewrite (flushFile_loop_split file (Z.to_nat (numBufs s))
             (Z.to_nat (numBufs s)) 0 s); try done; try lia.
  2: { intros j Hj. apply Hok. lia. }
  rewrite Z2Nat.id, Nat.sub_diag by lia. done.
Qed.

(** Either every frame is occupied and unpinned, or there is a first frame
    that is pinned or free. *)
Lemma all_flushable_cases s :
  all_flushable s \/
  exists k, 0 <= k < numBufs s /\
    (forall j, 0 <= j < k -> pinCnt (descAt s j) = 0 /\ valid (descAt s j) = true) /\
    (pinCnt (descAt s k) <> 0 \/ valid (descAt s k) = false).
Proof.
  assert (forall n : nat,
    (forall j, 0 <= j < Z.of_nat n ->
       pinCnt (descAt s j) = 0 /\ valid (descAt s j) = true) \/
    (exists k, 0 <= k < Z.of_nat n /\
       (forall j, 0 <= j < k -> pinCnt (descAt s j) = 0 /\ valid (descAt s j) = true) /\
       (pinCnt (descAt s k) <> 0 \/ valid (descAt s k) = false))) as H.
  { induction n as [|n [IH|(k & Hk & Hok & Hstop)]].
    - left. intros j Hj. lia.
    - destruct (decide (pinCnt (descAt s (Z.of_nat n)) = 0)) as [Hp|Hp];
        [destruct (valid (descAt s (Z.of_nat n))) eqn:Hv|].
      + left. intros j Hj. destruct (decide (j = Z.of_nat n)) as [->|Hne].
        * done.
        * apply IH. lia.
      + right. exists (Z.of_nat n). split; [lia|]. split; [done | by right].
      + right. exists (Z.of_nat n). split; [lia|]. split; [done | by left].
    - right. exists k. split; [lia | done]. }
  destruct (Z_lt_le_dec (numBufs s) 0) as [Hneg|Hpos].
  - left. intros i Hi. lia.
  - destruct (H (Z.to_nat (numBufs s))) as [Hall | (k & Hk & Hrest)].
    + left. intros i Hi. apply Hall. lia.
    + right. exists k. split; [lia | done].
Qed.

Lemma flush_writes_elem f s js g pg :
  EvWrite g pg ∈ flush_writes f s js ->
  g = f /\ exists j, j ∈ js /\ dirty (descAt s j) = true /\ pg = pageAt s j.
Proof.
  unfold flush_writes. rewrite list_elem_of_In, in_flat_map.
  intros (j & Hj & Hin). apply list_elem_of_In in Hj.
  destruct (dirty (descAt s j)) eqn:Hd; [|by destruct Hin].
  destruct Hin as [Heq|[]]. inversion Heq; subst. eauto.
Qed.

Lemma flush_writes_dirty f s js j :
  j ∈ js -> dirty (descAt s j) = true ->
  EvWrite f (pageAt s j) ∈ flush_writes f s js.
Proof.
  intros Hj Hd. unfold flush_writes. rewrite list_elem_of_In, in_flat_map.
  exists j. split; [by apply list_elem_of_In|]. rewrite Hd. by left.
Qed.

(** ** [allocPage] and [disposePage] *)

Lemma allocPage_wf file s r s' : wf s -> allocPage file s = (r, s') -> wf s'.
Proof.
  intros Hwf. unfold allocPage, File_allocatePage. unfold bind at 1.
  set (s0 := set_files _ _ s).
  assert (wf s0) as Hwf0 by (by apply wf_set_files).
  unfold bind at 1.
  destruct (allocBuf s0) as [[frame|e|] s1] eqn:Ha;
    pose proof (allocBuf_wf _ _ _ Hwf0 Ha) as Hwf1;
    try (by intros H; inversion H; subst).
  pose proof (allocBuf_frame _ _ _ Ha) as [Hn _].
  apply allocBuf_Ret in Ha as [Hfr _]; [|done].
  unfold bind, modify, hashTable_insert, get, ret; simpl.
  destruct (hashTable s1 !! _) eqn:Hh; intros H; inversion H; subst.
  - by apply wf_set_page.
  - apply wf_set_desc; [|done].
    apply wf_set_hashTable; [by apply wf_set_page|].
    intros k' fr Hk'. simpl in Hk' |- *.
    apply lookup_insert_Some in Hk' as [[_ <-] | [_ Hk']]; [lia|].
    by apply (wf_hash _ Hwf1 k').
Qed.

Lemma disposePage_wf file pageNo s r s' :
  wf s -> disposePage file pageNo s = (r, s') -> wf s'.
Proof.
  intros Hwf. unfold disposePage, bind, try_catch_HashNotFound, hashTable_lookup,
    hashTable_remove, File_deletePage, get, modify, ret; simpl.
  destruct (hashTable s !! (file, pageNo)) as [frame|] eqn:Hh; simpl.
  - rewrite Hh. intros H; inversion H; subst.
    apply wf_set_files.
    apply wf_set_hashTable; [by apply wf_set_desc|].
    intros k' fr Hk'. simpl in Hk' |- *.
    apply lookup_delete_Some in Hk' as [_ Hk'].
    by apply (wf_hash _ Hwf k').
  - intros H; inversion H; subst. by apply wf_set_files.
Qed.

(** Every state the manager reaches from a fresh pool is well-formed. *)
Lemma step_wf o s : wf s -> wf (step o s).
Proof.
  intros Hwf. destruct o as [f p|f p d|f|f|f p]; simpl.
  - destruct (readPage f p s) eqn:H. by eapply readPage_wf.
  - destruct (unPinPage f p d s) eqn:H. by eapply unPinPage_wf.
  - destruct (allocPage f s) eqn:H. by eapply allocPage_wf.
  - destruct (flushFile f s) eqn:H. by eapply flushFile_wf.
  - destruct (disposePage f p s) eqn:H. by eapply disposePage_wf.
Qed.

Lemma run_ops_wf ops : forall s, wf s -> wf (run_ops ops s).
Proof.
  induction ops as [|o ops IH]; intros s Hwf; [done|].
  apply IH. by apply step_wf.
Qed.

Lemma reachable_wf bufs d ops :
  0 <= bufs < UINT32_MOD -> wf (run_ops ops (BufMgr_new bufs d)).
Proof. intros Hb. by apply run_ops_wf, wf_BufMgr_new. Qed.

(** ** What the search returns and when it gives up *)


Lemma allocBuf_loop_Throw fuel : forall count s c' e s',
  allocBuf_loop fuel count s = (c', (Throw e, s')) ->
  e = BufferExceededException \/
  exists s1, sweep_rel s s1 /\ allocBuf_inspect s1 = (Throw e, s').
Proof.
  induction fuel as [|fuel IH]; intros count s c' e s' H; simpl in H; [done|].
  destruct (wrap32 (numBufs s * 2) <? count); [left; by inversion H|].
  destruct (allocBuf_inspect s) as [[[fr|]|e0|] s1] eqn:Hi; try done.
  - apply IH in H as [-> | (s2 & Hrel & Hsel)]; [by left|].
    apply allocBuf_inspect_sweep in Hi as [Hrel1 _].
    right. exists s2. split; [by eapply sweep_rel_trans | done].
  - inversion H; subst. right. exists s. split; [apply sweep_rel_refl | done].
Qed.




(** ** Filling free frames *)

Lemma allocBuf_free_next s :
  0 < numBufs s -> numBufs s * 2 < UINT32_MOD ->
  valid (descAt s (next_hand s)) = false ->
  allocBuf s = (Ret (next_hand s), set_clockHand (next_hand s) s).
Proof.
  intros Hn Hb Hv. pose proof UINT32_MOD_eq as HM.
  unfold allocBuf, allocBuf_fuel. simpl.
  rewrite (wrap32_small (numBufs s * 2)) by lia.
  assert ((numBufs s * 2 <? 1) = false) as -> by (apply Z.ltb_ge; lia).
  rewrite allocBuf_inspect_eq. simpl. by rewrite Hv.
Qed.




(** ** The scenarios of the specification, for any pool size *)

Lemma next_hand_BufMgr_new bufs d :
  0 < bufs < UINT32_MOD -> next_hand (BufMgr_new bufs d) = 0.
Proof.
  intros Hb. pose proof UINT32_MOD_eq as HM. unfold next_hand; simpl.
  rewrite (wrap32_small (bufs - 1)) by lia.
  rewrite wrap32_small by lia.
  replace (bufs - 1 + 1) with (0 + 1 * bufs) by lia.
  rewrite Z_mod_plus_full. apply Z.mod_small. lia.
Qed.

Lemma valid_BufMgr_new bufs d i : valid (descAt (BufMgr_new bufs d) i) = false.
Proof. by destruct (descAt_BufMgr_new bufs d i) as (k & -> & _). Qed.





(** ** The sample runs *)

Lemma uint32_bound_small n : 0 <= n < 1000 -> 0 <= n < UINT32_MOD.
Proof. rewrite UINT32_MOD_eq. lia. Qed.


(** * The properties of the specification *)

(** What the search does test: a frame index [allocBuf] returns names a
    descriptor that is either invalid or occupied with [pinCnt = 0], both in
    the state the search starts from and in the state [s1] in which the
    selecting inspection is made (the sweep in between only clears reference
    bits). The pin count of an invalid frame is never looked at: it is 0
    only where free descriptors are in their cleared state, which is not
    every reachable state (see [run_stale2]). *)
Lemma allocBuf_selects_unpinned s frame s' :
  wf s -> allocBuf s = (Ret frame, s') ->
  (valid (descAt s frame) = false \/
   (valid (descAt s frame) = true /\ pinCnt (descAt s frame) = 0)) /\
  (exists s1, sweep_rel s s1 /\
     allocBuf_inspect s1 = (Ret (Some frame), s') /\
     (valid (descAt s1 frame) = false \/
      (valid (descAt s1 frame) = true /\ pinCnt (descAt s1 frame) = 0))) /\
  ((forall i, valid (descAt s i) = false -> pinCnt (descAt s i) = 0) ->
   pinCnt (descAt s frame) = 0).
Proof.
  intros Hwf H. apply allocBuf_Ret in H as [_ (s1 & Hrel & Hsel)]; [|done].
  destruct (sweep_rel_fields s s1 frame Hrel) as (Hv & Hp & _).
  pose proof (allocBuf_inspect_Some _ _ _ Hsel) as [_ Hcase].
  assert (valid (descAt s1 frame) = false \/
          (valid (descAt s1 frame) = true /\ pinCnt (descAt s1 frame) = 0)) as H1.
  { destruct Hcase as [(Hf & _) | (Ht & _ & Hz & _)]; [by left | by right]. }
  split_and!.
  - by rewrite <- Hv, <- Hp.
  - by exists s1.
  - intros Hinv. destruct H1 as [Hf | [_ Hz]]; [|by rewrite <- Hp].
    apply Hinv. by rewrite <- Hv.
Qed.

Lemma allocBuf_selects_unpinned_witness :
  valid (descAt run_dirty1 0) = false \/
  (valid (descAt run_dirty1 0) = true /\ pinCnt (descAt run_dirty1 0) = 0).
Proof.
  apply (allocBuf_selects_unpinned run_dirty1 0 (snd (allocBuf run_dirty1))).
  - apply reachable_wf, uint32_bound_small. lia.
  - vm_compute. reflexivity.
Defined.

(** C2, the code at a run that breaks it. Two frames; both are released and
    [flushFile] of file 1 clears them, leaving the page-table entry of file
    2's page 1 (frame 0) behind. The next fetch of that page hits the entry
    and pins frame 0, which is free. [allocBuf] takes a free frame without
    looking at its pin count: its first inspection selects frame 0, whose
    pin count is 1 at that moment and afterwards, and the fetch of page 2 of
    file 1 that called it overwrites the slot the holder of the pin was
    given. *)
Theorem allocBuf_selects_pinned_free_frame :
  let s := run_stale2 in
  let s' := snd (readPage file1 2 s) in
  s = snd (readPage file2 1 (snd (flushFile file1 run_two_files_clean))) /\
  wf s /\
  fst (flushFile file1 run_two_files_clean) = Ret tt /\
  hashTable (snd (flushFile file1 run_two_files_clean)) !! (file2, 1) = Some 0 /\
  fst (readPage file2 1 (snd (flushFile file1 run_two_files_clean))) = Ret 0 /\
  hashTable s !! (file2, 1) = Some 0 /\
  valid (descAt s 0) = false /\ pinCnt (descAt s 0) = 1 /\
  pageAt s 0 = mkPage 1 "X" /\
  next_hand s = 0 /\
  fst (allocBuf_inspect s) = Ret (Some 0) /\
  fst (allocBuf s) = Ret 0 /\
  allocBuf_inspected s = 1 /\
  pinCnt (descAt (snd (allocBuf s)) 0) = 1 /\
  fst (readPage file1 2 s) = Ret 0 /\
  pageAt s' 0 = mkPage 2 "B" /\
  hashTable s' !! (file2, 1) = Some 0 /\
  hashTable s' !! (file1, 2) = Some 0.
Proof.
  split; [reflexivity|].
  split.
  { apply (reachable_wf 2 disk_ex
             [OpReadPage file2 1; OpUnPinPage file2 1 false; OpReadPage file1 1;
              OpUnPinPage file1 1 false; OpFlushFile file1; OpReadPage file2 1]).
    apply uint32_bound_small. lia. }
  by vm_compute.
Qed.






(** The three ways [unPinPage] ends. On a key that is cached with
    [pinCnt = 0] it throws [PageNotPinnedException] and changes nothing; on a
    key that is not cached it is the lookup's [HashNotFoundException] that
    reaches the caller; on a cached key with a pin it returns, the pin count
    one lower and not negative. No call leaves a negative pin count. *)
Lemma unPinPage_release f p m s :
  wf s ->
  (hashTable s !! (f, p) = None ->
   unPinPage f p m s = (Throw HashNotFoundException, s)) /\
  (forall frame,
     hashTable s !! (f, p) = Some frame -> pinCnt (descAt s frame) = 0 ->
     unPinPage f p m s = (Throw (PageNotPinnedException p frame), s)) /\
  (forall frame,
     hashTable s !! (f, p) = Some frame -> pinCnt (descAt s frame) <> 0 ->
     exists s',
       unPinPage f p m s = (Ret tt, s') /\
       pinCnt (descAt s' frame) = pinCnt (descAt s frame) - 1 /\
       0 <= pinCnt (descAt s' frame)) /\
  (forall i, 0 <= pinCnt (descAt (snd (unPinPage f p m s)) i)).
Proof.
  intros Hwf. split_and!.
  - intros Hh. by rewrite unPinPage_eq, Hh.
  - intros frame Hh Hp. by rewrite unPinPage_eq, Hh; simpl; rewrite Hp.
  - intros frame Hh Hp. rewrite unPinPage_eq, Hh. simpl.
    apply Z.eqb_neq in Hp as Hp'. rewrite Hp'.
    eexists. split; [done|].
    rewrite descAt_set_desc_eq.
    + simpl. pose proof (wf_pins _ Hwf frame). lia.
    + apply wf_frame_lt; [done|]. by apply (wf_hash _ Hwf (f, p)).
  - destruct (unPinPage f p m s) as [r s'] eqn:H.
    apply (wf_pins _ (unPinPage_wf _ _ _ _ _ _ Hwf H)).
Qed.

Lemma unPinPage_release_witness :
  exists s',
    unPinPage file1 1 false run_pinned1 = (Ret tt, s') /\
    pinCnt (descAt s' 0) = pinCnt (descAt run_pinned1 0) - 1 /\
    0 <= pinCnt (descAt s' 0).
Proof.
  assert (wf run_pinned1) as Hwf
    by (apply reachable_wf, uint32_bound_small; lia).
  apply (proj1 (proj2 (proj2 (unPinPage_release file1 1 false run_pinned1 Hwf))) 0).
  - vm_compute. reflexivity.
  - vm_compute. discriminate.
Defined.

(** C5, the code at an input that breaks it. Releasing a page that was never
    fetched, here page 1 of file 1 on a fresh pool of one frame: the lookup
    of [unPinPage] is made outside any handler, so the call ends in the page
    table's [HashNotFoundException] and not in [PageNotPinnedException]; the
    same happens for a page that was fetched, released and disposed of. On
    the same uncached key [disposePage] swallows the lookup's exception and
    returns, and [readPage] takes it as a miss. *)
Theorem unPinPage_uncached_leaks_HashNotFound :
  let s := BufMgr_new 1 disk_ex in
  let s1 := run_ops [OpReadPage file1 1; OpUnPinPage file1 1 false;
                     OpDisposePage file1 1] s in
  hashTable s !! (file1, 1) = None /\
  unPinPage file1 1 false s = (Throw HashNotFoundException, s) /\
  ~ (exists frame,
       fst (unPinPage file1 1 false s) = Throw (PageNotPinnedException 1 frame)) /\
  unPinPage file1 1 true s = (Throw HashNotFoundException, s) /\
  hashTable s1 !! (file1, 1) = None /\
  unPinPage file1 1 false s1 = (Throw HashNotFoundException, s1) /\
  fst (disposePage file1 1 s) = Ret tt /\
  fst (readPage file1 1 s) = Ret 0.
Proof.
  split; [by vm_compute|]. split; [by vm_compute|]. split.
  { intros [frame H]. vm_compute in H. discriminate. }
  by vm_compute.
Qed.

(** C9. The modified flag is sticky under release: a release that returns
    found the key cached, leaves [dirty] set when called with [true] and
    unchanged when called with [false], lowers [pinCnt] by one, and changes
    no other field of that descriptor, no other descriptor, and nothing else
    in the manager. *)
Theorem unPinPage_dirty_sticky f p m s s' :
  wf s -> unPinPage f p m s = (Ret tt, s') ->
  exists frame,
    hashTable s !! (f, p) = Some frame /\
    dirty (descAt s' frame) = (if m then true else dirty (descAt s frame)) /\
    pinCnt (descAt s' frame) = pinCnt (descAt s frame) - 1 /\
    file (descAt s' frame) = file (descAt s frame) /\
    pageNo (descAt s' frame) = pageNo (descAt s frame) /\
    frameNo (descAt s' frame) = frameNo (descAt s frame) /\
    refbit (descAt s' frame) = refbit (descAt s frame) /\
    valid (descAt s' frame) = valid (descAt s frame) /\
    (forall i, 0 <= i -> i <> frame -> descAt s' i = descAt s i) /\
    hashTable s' = hashTable s /\ bufPool s' = bufPool s /\
    clockHand s' = clockHand s /\ disk s' = disk s /\ io s' = io s.
Proof.
  intros Hwf. rewrite unPinPage_eq.
  destruct (hashTable s !! (f, p)) as [frame|] eqn:Hh; [|done]. simpl.
  destruct (pinCnt (descAt s frame) =? 0); [done|].
  intros H; inversion H; subst s'; clear H.
  pose proof (wf_hash _ Hwf _ _ Hh) as Hfr.
  exists frame. split; [done|].
  rewrite descAt_set_desc_eq by (by apply wf_frame_lt).
  simpl. split_and!; try done; try (by destruct m).
  intros i Hi Hne. apply descAt_set_desc_ne; [lia | done | done].
Qed.

Lemma unPinPage_dirty_sticky_witness :
  exists frame,
    hashTable run_pinned1 !! (file1, 1) = Some frame /\
    dirty (descAt run_dirty1 frame) = true.
Proof.
  destruct (unPinPage_dirty_sticky file1 1 true run_pinned1 run_dirty1)
    as (frame & Hh & Hd & _).
  - apply reachable_wf, uint32_bound_small. lia.
  - vm_compute. reflexivity.
  - exists frame. split; [exact Hh | exact Hd].
Defined.

(** C8. After [readPage f p] returns, the page table maps [(f, p)] to the
    returned frame, whose descriptor has [pinCnt >= 1] and [refbit] set. On a
    hit the call returns the cached slot, sets [refbit], raises [pinCnt] by
    one, and touches neither the pool, the page table nor the files. *)
Theorem readPage_pins f p s :
  wf s ->
  (forall frame s',
     readPage f p s = (Ret frame, s') ->
     hashTable s' !! (f, p) = Some frame /\
     1 <= pinCnt (descAt s' frame) /\
     refbit (descAt s' frame) = true) /\
  (forall frame,
     hashTable s !! (f, p) = Some frame ->
     exists s',
       readPage f p s = (Ret frame, s') /\
       refbit (descAt s' frame) = true /\
       pinCnt (descAt s' frame) = pinCnt (descAt s frame) + 1 /\
       pageAt s' frame = pageAt s frame /\
       bufPool s' = bufPool s /\ hashTable s' = hashTable s /\
       disk s' = disk s /\ io s' = io s).
Proof.
  intros Hwf.
  assert (forall frame,
     hashTable s !! (f, p) = Some frame ->
     exists s',
       readPage f p s = (Ret frame, s') /\
       refbit (descAt s' frame) = true /\
       pinCnt (descAt s' frame) = pinCnt (descAt s frame) + 1 /\
       pageAt s' frame = pageAt s frame /\
       bufPool s' = bufPool s /\ hashTable s' = hashTable s /\
       disk s' = disk s /\ io s' = io s) as Hhit.
  { intros frame Hh. rewrite (readPage_hit _ _ _ _ Hh).
    eexists. split; [done|].
    rewrite descAt_set_desc_eq; [done|].
    apply wf_frame_lt; [done|]. by apply (wf_hash _ Hwf (f, p)). }
  split; [|done].
  intros frame s' H.
  destruct (hashTable s !! (f, p)) as [frame0|] eqn:Hh.
  - destruct (Hhit frame0 eq_refl) as (s'' & He & Hr & Hp & _ & _ & Hht & _).
    rewrite He in H. inversion H; subst.
    split; [by rewrite Hht|]. split; [|done].
    pose proof (wf_pins _ Hwf frame). lia.
  - rewrite (readPage_miss _ _ _ Hh) in H.
    destruct (allocBuf s) as [[frame0|e|] s1] eqn:Ha; try done.
    destruct (disk s1 !! (f, p)) as [pg|]; [|done].
    simpl in H. destruct (hashTable s1 !! (f, p)); [done|].
    inversion H; subst frame0 s'; clear H.
    pose proof (allocBuf_wf _ _ _ Hwf Ha) as Hwf1.
    pose proof (allocBuf_frame _ _ _ Ha) as [Hn _].
    apply allocBuf_Ret in Ha as [Hfr _]; [|done].
    split; [simpl; apply lookup_insert_eq|].
    rewrite descAt_set_desc_eq; [done|].
    simpl. rewrite (wf_descs _ Hwf1). lia.
Qed.

Lemma readPage_pins_witness :
  hashTable (snd (readPage file1 3 run_evict2)) !! (file1, 3) = Some 0 /\
  1 <= pinCnt (descAt (snd (readPage file1 3 run_evict2)) 0) /\
  refbit (descAt (snd (readPage file1 3 run_evict2)) 0) = true.
Proof.
  assert (wf run_evict2) as Hwf
    by (apply reachable_wf, uint32_bound_small; lia).
  apply (proj1 (readPage_pins file1 3 run_evict2 Hwf) 0).
  vm_compute. reflexivity.
Defined.

(** C6. [flushFile] throws [PagePinnedException] at the first frame it
    reaches whose [pinCnt] is not 0, and the frames before it stay flushed:
    each is cleared, its content written through the flushed file if it was
    dirty, in frame order, and the page-table entry under the flushed file
    and the content's page number is gone (so a frame owned by the flushed
    file has lost its entry); frames from the pinned one on and the pool
    are untouched, and no page-table entry is added back. *)
Theorem flushFile_pinned_partial f s k :
  wf s -> 0 <= k < numBufs s ->
  (forall j, 0 <= j < k -> pinCnt (descAt s j) = 0 /\ valid (descAt s j) = true) ->
  pinCnt (descAt s k) <> 0 ->
  exists s',
    flushFile f s = (Throw (PagePinnedException (page_number (pageAt s k)) k), s') /\
    (forall j, 0 <= j < k ->
       descAt s' j = clear (descAt s j) /\
       hashTable s' !! (f, page_number (pageAt s j)) = None) /\
    (forall j, 0 <= j < k ->
       file (descAt s j) = f -> pageNo (descAt s j) = page_number (pageAt s j) ->
       hashTable s' !! (file (descAt s j), pageNo (descAt s j)) = None) /\
    io s' = io s ++ flush_writes f s (seqZ 0 k) /\
    (forall j, k <= j -> descAt s' j = descAt s j) /\
    bufPool s' = bufPool s /\
    (forall key frame,
       hashTable s' !! key = Some frame -> hashTable s !! key = Some frame).
Proof.
  intros Hwf Hk Hok Hpin.
  rewrite (flushFile_stops f s k Hwf Hk Hok) by (by left).
  apply Z.eqb_neq in Hpin as ->.
  eexists. split; [done|].
  destruct (flush_frames_spec f (Z.to_nat k) 0 s Hwf) as
    (_ & _ & G2 & _ & G4 & G5 & G6 & _ & G8); [lia | lia |].
  rewrite Z2Nat.id in G2, G4, G5, G6, G8 by lia.
  split_and!; try done.
  - intros j Hj. split; [|by apply G6].
    rewrite G4 by lia. by rewrite decide_True by lia.
  - intros j Hj -> ->. by apply G6.
  - intros j Hj. rewrite G4 by lia. by rewrite decide_False by lia.
Qed.

Lemma flushFile_pinned_partial_witness :
  exists s',
    flushFile file1 run_evict2 = (Throw (PagePinnedException 2 1), s') /\
    descAt s' 0 = clear (descAt run_evict2 0) /\
    hashTable s' !! (file1, 1) = None.
Proof.
  destruct (flushFile_pinned_partial file1 run_evict2 1) as (s' & He & Hd & _).
  - apply reachable_wf, uint32_bound_small. lia.
  - vm_compute. split; [discriminate | reflexivity].
  - intros j Hj. assert (j = 0) as -> by lia. vm_compute. split; reflexivity.
  - vm_compute. discriminate.
  - exists s'. split; [exact He|]. apply (Hd 0). lia.
Defined.

(** C7. [flushFile f] looks at every frame, whoever owns it. When it returns,
    every descriptor of the pool is cleared; the writes it made all went
    through [f], one for each frame that was dirty, frames of other files
    included; the page-table entries of other files are all still there,
    and each now points at an invalid frame. *)
Theorem flushFile_ignores_owner f s :
  wf s -> all_flushable s ->
  exists s',
    flushFile f s = (Ret tt, s') /\
    (forall i, 0 <= i < numBufs s ->
       descAt s' i = clear (descAt s i) /\ valid (descAt s' i) = false) /\
    io s' = io s ++ flush_writes f s (seqZ 0 (numBufs s)) /\
    (forall i, 0 <= i < numBufs s -> dirty (descAt s i) = true ->
       EvWrite f (pageAt s i) ∈ io s') /\
    (forall g pg, g <> f -> EvWrite g pg ∈ io s' -> EvWrite g pg ∈ io s) /\
    (forall g p, g <> f -> hashTable s' !! (g, p) = hashTable s !! (g, p)) /\
    (forall g p frame, g <> f -> hashTable s !! (g, p) = Some frame ->
       hashTable s' !! (g, p) = Some frame /\ valid (descAt s' frame) = false).
Proof.
  intros Hwf Hok. pose proof (wf_numBufs _ Hwf) as Hn.
  rewrite (flushFile_ok f s Hwf Hok). eexists. split; [done|].
  destruct (flush_frames_spec f (Z.to_nat (numBufs s)) 0 s Hwf) as
    (_ & _ & _ & _ & G4 & G5 & _ & G7 & _); [lia | lia |].
  rewrite Z2Nat.id in G4, G5, G7 by lia.
  assert (forall i, 0 <= i < numBufs s ->
            descAt (flush_frames f (seqZ 0 (numBufs s)) s) i = clear (descAt s i))
    as Hclr.
  { intros i Hi. rewrite G4 by lia. by rewrite decide_True by lia. }
  assert (forall g p, g <> f ->
            hashTable (flush_frames f (seqZ 0 (numBufs s)) s) !! (g, p)
              = hashTable s !! (g, p)) as Hother.
  { intros g p Hg. apply G7. intros j _ Heq. by inversion Heq. }
  split_and!; try done.
  - intros i Hi. split; [by apply Hclr | by rewrite Hclr].
  - intros i Hi Hd. rewrite G5. apply elem_of_app. right.
    apply flush_writes_dirty; [|done]. apply elem_of_seqZ. lia.
  - intros g pg Hg Hin. rewrite G5 in Hin.
    apply elem_of_app in Hin as [Hin|Hin]; [done|].
    by apply flush_writes_elem in Hin as [-> _].
  - intros g p frame Hg Hh. split; [by rewrite Hother|].
    rewrite Hclr; [done|]. by apply (wf_hash _ Hwf (g, p)).
Qed.

Lemma flushFile_ignores_owner_witness :
  exists s',
    flushFile file1 run_two_files = (Ret tt, s') /\
    io s' = io run_two_files ++ [EvWrite file1 (mkPage 1 "X")] /\
    hashTable s' !! (file2, 1) = Some 0 /\
    valid (descAt s' 0) = false.
Proof.
  destruct (flushFile_ignores_owner file1 run_two_files)
    as (s' & He & _ & Hio & _ & _ & _ & Hst).
  - apply reachable_wf, uint32_bound_small. lia.
  - intros i Hi.
    assert (numBufs run_two_files = 2) as Hn by (vm_compute; reflexivity).
    rewrite Hn in Hi.
    assert (i = 0 \/ i = 1) as [-> | ->] by lia;
      vm_compute; split; reflexivity.
  - exists s'. split; [exact He|]. split; [exact Hio|].
    apply (Hst file2 1 0); [discriminate | vm_compute; reflexivity].
Defined.

(** C10, as the code has it. [flushFile] tests the pin count before the
    occupancy bit: the first frame [k] that is pinned or free ends the call,
    with [BadBufferException] at [k] if it is free and unpinned, with
    [PagePinnedException] at [k] if it is pinned, free or not. So
    [flushFile] returns exactly when every frame is occupied and unpinned;
    on a pool with a free frame [i] it throws at the first frame [k <= i]
    that is pinned or free, [BadBufferException] when that frame is unpinned
    (and so free) and [PagePinnedException] when it is pinned; on a freshly
    constructed pool it throws [BadBufferException] at frame 0. *)
Theorem flushFile_needs_full_unpinned_pool :
  (forall f s k,
     wf s -> 0 <= k < numBufs s ->
     (forall j, 0 <= j < k -> pinCnt (descAt s j) = 0 /\ valid (descAt s j) = true) ->
     pinCnt (descAt s k) = 0 -> valid (descAt s k) = false ->
     fst (flushFile f s)
       = Throw (BadBufferException k (dirty (descAt s k)) false (refbit (descAt s k)))) /\
  (forall f s k,
     wf s -> 0 <= k < numBufs s ->
     (forall j, 0 <= j < k -> pinCnt (descAt s j) = 0 /\ valid (descAt s j) = true) ->
     pinCnt (descAt s k) <> 0 ->
     fst (flushFile f s)
       = Throw (PagePinnedException (page_number (pageAt s k)) k)) /\
  (forall f s, wf s -> (fst (flushFile f s) = Ret tt <-> all_flushable s)) /\
  (forall f s i,
     wf s -> 0 <= i < numBufs s -> valid (descAt s i) = false ->
     exists k, 0 <= k <= i /\
       (forall j, 0 <= j < k ->
          pinCnt (descAt s j) = 0 /\ valid (descAt s j) = true) /\
       ((pinCnt (descAt s k) = 0 /\ valid (descAt s k) = false /\
         fst (flushFile f s)
           = Throw (BadBufferException k (dirty (descAt s k)) false
                      (refbit (descAt s k)))) \/
        (pinCnt (descAt s k) <> 0 /\
         fst (flushFile f s)
           = Throw (PagePinnedException (page_number (pageAt s k)) k)))) /\
  (forall f bufs d,
     0 < bufs < UINT32_MOD ->
     fst (flushFile f (BufMgr_new bufs d))
       = Throw (BadBufferException 0 false false false)).
Proof.
  assert (forall f s k,
     wf s -> 0 <= k < numBufs s ->
     (forall j, 0 <= j < k -> pinCnt (descAt s j) = 0 /\ valid (descAt s j) = true) ->
     pinCnt (descAt s k) = 0 -> valid (descAt s k) = false ->
     fst (flushFile f s)
       = Throw (BadBufferException k (dirty (descAt s k)) false (refbit (descAt s k))))
    as Hbad.
  { intros f s k Hwf Hk Hok Hp Hv.
    rewrite (flushFile_stops f s k Hwf Hk Hok) by (by right).
    simpl. by rewrite Hp, Hv. }
  assert (forall f s k,
     wf s -> 0 <= k < numBufs s ->
     (forall j, 0 <= j < k -> pinCnt (descAt s j) = 0 /\ valid (descAt s j) = true) ->
     pinCnt (descAt s k) <> 0 ->
     fst (flushFile f s)
       = Throw (PagePinnedException (page_number (pageAt s k)) k))
    as Hpinned.
  { intros f s k Hwf Hk Hok Hp.
    rewrite (flushFile_stops f s k Hwf Hk Hok) by (by left).
    simpl. by apply Z.eqb_neq in Hp as ->. }
  split; [done|]. split; [done|]. split; [|split].
  - intros f s Hwf. split.
    + intros Hret.
      destruct (all_flushable_cases s) as [Hall | (k & Hk & Hok & Hstop)]; [done|].
      by rewrite (flushFile_stops f s k Hwf Hk Hok Hstop) in Hret.
    + intros Hall. by rewrite (flushFile_ok f s Hwf Hall).
  - intros f s i Hwf Hi Hv.
    destruct (all_flushable_cases s) as [Hall | (k & Hk & Hok & Hstop)].
    { destruct (Hall i Hi) as [_ Hv']. congruence. }
    assert (k <= i) as Hki.
    { destruct (Z_le_gt_dec k i) as [?|Hgt]; [done|].
      destruct (Hok i) as [_ Hv']; [lia | congruence]. }
    exists k. split; [lia|]. split; [done|].
    destruct (decide (pinCnt (descAt s k) = 0)) as [Hp|Hp].
    + assert (valid (descAt s k) = false) as Hvk by (by destruct Hstop).
      left. split; [done|]. split; [done|]. by apply Hbad.
    + right. split; [done|]. by apply Hpinned.
  - intros f bufs d Hb.
    assert (wf (BufMgr_new bufs d)) as Hwf by (apply wf_BufMgr_new; lia).
    destruct (descAt_BufMgr_new bufs d 0) as (k & He & Hk).
    rewrite (Hk ltac:(lia)) in He.
    rewrite (Hbad f (BufMgr_new bufs d) 0 Hwf); rewrite ?He; try done.
    + simpl. lia.
    + intros j Hj. lia.
Qed.

Lemma flushFile_needs_full_unpinned_pool_witness :
  fst (flushFile file1 (BufMgr_new 3 disk_ex))
    = Throw (BadBufferException 0 false false false).
Proof.
  apply (proj2 (proj2 (proj2 (proj2 flushFile_needs_full_unpinned_pool)))
           file1 3 disk_ex).
  rewrite UINT32_MOD_eq. lia.
Defined.

(** C10 as stated fails: with page 1 pinned in frame 0 of a pool of two,
    frame 1 is free, and [flushFile] ends in [PagePinnedException] at frame 0,
    not in [BadBufferException]. *)
Lemma flushFile_free_frame_not_BadBuffer :
  valid (descAt run_pinned2 1) = false /\
  fst (flushFile file1 run_pinned2) = Throw (PagePinnedException 1 0) /\
  ~ (exists k dd vv rr,
       fst (flushFile file1 run_pinned2) = Throw (BadBufferException k dd vv rr)).
Proof.
  split; [by vm_compute|]. split; [by vm_compute|].
  intros (k & dd & vv & rr & H). vm_compute in H. discriminate.
Qed.

(** C1, the code at a run that breaks it. Three frames; page 1 of file 2
    sits in frame 0, page 2 of file 1 is pinned in frame 1, page 1 of file 1
    sits in frame 2. [flushFile] of file 1 drops, at frame 0, the entry of
    file 1's page 1 (frame 0 holds another file's page with the same
    number), then throws at the pinned frame 1. The next fetch of file 1's
    page 1 misses and loads it into frame 0: in the state this run reaches
    from a fresh pool, frames 0 and 2 are both occupied by page 1 of
    file 1. *)
Theorem flushFile_breaks_unique_caching :
  let s := run_mixed3 in
  let s1 := snd (flushFile file1 s) in
  let s2 := snd (readPage file1 1 s1) in
  s2 = run_ops [OpReadPage file2 1; OpUnPinPage file2 1 false; OpReadPage file1 2;
                OpReadPage file1 1; OpUnPinPage file1 1 false;
                OpFlushFile file1; OpReadPage file1 1]
               (BufMgr_new 3 disk_ex) /\
  wf s2 /\
  hashTable s !! (file1, 1) = Some 2 /\
  fst (flushFile file1 s) = Throw (PagePinnedException 2 1) /\
  hashTable s1 !! (file1, 1) = None /\
  valid (descAt s1 2) = true /\
  fst (readPage file1 1 s1) = Ret 0 /\
  valid (descAt s2 0) = true /\ valid (descAt s2 2) = true /\
  (file (descAt s2 0), pageNo (descAt s2 0)) = (file1, 1) /\
  (file (descAt s2 2), pageNo (descAt s2 2)) = (file1, 1).
Proof.
  split; [reflexivity|].
  split.
  { apply (reachable_wf 3 disk_ex
             [OpReadPage file2 1; OpUnPinPage file2 1 false; OpReadPage file1 2;
              OpReadPage file1 1; OpUnPinPage file1 1 false;
              OpFlushFile file1; OpReadPage file1 1]).
    apply uint32_bound_small. lia. }
  by vm_compute.
Qed.

(** * Further properties of the code *)

(** ** The clock hand *)

Lemma mod_shift_ne a t n :
  0 < n -> 0 < t < n -> (a + t) mod n <> a mod n.
Proof.
  intros Hn Ht Heq.
  assert ((a + t - a) mod n = 0) as H0.
  { rewrite Zminus_mod, Heq, Z.sub_diag. by apply Z.mod_0_l, Z.neq_sym, Z.lt_neq. }
  replace (a + t - a) with t in H0 by lia.
  rewrite Z.mod_small in H0 by lia. lia.
Qed.

Lemma hand_after_ne s t u :
  0 < numBufs s -> t < u < t + numBufs s -> hand_after s t <> hand_after s u.
Proof.
  intros Hn Htu Heq. unfold hand_after in Heq.
  apply (mod_shift_ne (clockHand s + t) (u - t) (numBufs s) Hn); [lia|].
  rewrite Heq. f_equal. lia.
Qed.

Lemma hand_after_range s t : 0 < numBufs s -> 0 <= hand_after s t < numBufs s.
Proof. intros Hn. by apply Z.mod_pos_bound. Qed.

(** Every frame is met within one turn of the hand. *)
Lemma hand_after_onto s i :
  wf s -> 0 <= i < numBufs s ->
  exists t, 1 <= t <= numBufs s /\ hand_after s t = i.
Proof.
  intros Hwf Hi. assert (0 < numBufs s) as Hn by lia.
  pose proof (wf_clock _ Hwf Hn) as Hc. unfold hand_after.
  destruct (Z_lt_ge_dec (clockHand s) i) as [Hlt|Hge].
  - exists (i - clockHand s). split; [lia|].
    replace (clockHand s + (i - clockHand s)) with i by lia.
    apply Z.mod_small. lia.
  - exists (i - clockHand s + numBufs s). split; [lia|].
    replace (clockHand s + (i - clockHand s + numBufs s))
      with (i + 1 * numBufs s) by lia.
    rewrite Z_mod_plus_full. apply Z.mod_small. lia.
Qed.

Lemma next_hand_hand_after s :
  wf s -> 0 < numBufs s -> next_hand s = hand_after s 1.
Proof.
  intros Hwf Hn. unfold next_hand, hand_after.
  pose proof (wf_clock _ Hwf Hn). pose proof (wf_numBufs _ Hwf).
  by rewrite wrap32_small by lia.
Qed.

Lemma with_refbit_false_id d : refbit d = false -> with_refbit false d = d.
Proof. destruct d; simpl. by intros ->. Qed.

(** One inspection changes no frame but the one it moves to. *)
Lemma allocBuf_inspect_others s r s' i :
  0 < numBufs s -> allocBuf_inspect s = (r, s') ->
  0 <= i -> i <> next_hand s ->
  descAt s' i = descAt s i /\ pageAt s' i = pageAt s i.
Proof.
  intros Hn H Hi Hne. pose proof (next_hand_range s Hn) as Hc.
  destruct (allocBuf_inspect_frame _ _ _ H) as [_ Hpool].
  split; [|unfold pageAt; by rewrite Hpool].
  rewrite allocBuf_inspect_eq in H. simpl in H.
  destruct (valid (descAt s (next_hand s))); [|by inversion H].
  destruct (refbit (descAt s (next_hand s))).
  { inversion H. by rewrite descAt_set_desc_ne by lia. }
  destruct (pinCnt (descAt s (next_hand s)) =? 0); [|by inversion H].
  assert (forall s0, bufDescTable s0 = bufDescTable s ->
            descAt (set_desc (next_hand s) (clear (descAt s (next_hand s))) s0) i
              = descAt s i) as Hclr.
  { intros s0 Hs0. rewrite descAt_set_desc_ne by lia. unfold descAt. by rewrite Hs0. }
  destruct (hashTable s !! _); inversion H; subst;
    destruct (dirty (descAt s (next_hand s))); by apply Hclr.
Qed.

(** An inspection of a frame that is no candidate goes on: the hand moves
    there, its reference bit ends up clear, no other frame changes. *)
Lemma allocBuf_inspect_skip s :
  wf s -> 0 < numBufs s -> ~ candidate s (next_hand s) ->
  exists s1,
    allocBuf_inspect s = (Ret None, s1) /\
    wf s1 /\ sweep_rel s s1 /\ clockHand s1 = next_hand s /\
    descAt s1 (next_hand s) = with_refbit false (descAt s (next_hand s)) /\
    (forall i, 0 <= i -> i <> next_hand s -> descAt s1 i = descAt s i).
Proof.
  intros Hwf Hn Hnc.
  pose proof (next_hand_range s Hn) as Hc.
  assert (Z.to_nat (next_hand s) < length (bufDescTable s))%nat as Hlt
    by (by apply wf_frame_lt).
  destruct (allocBuf_inspect s) as [r s1] eqn:Hi.
  pose proof (allocBuf_inspect_wf _ _ _ Hwf Hn Hi) as Hwf1.
  rewrite allocBuf_inspect_eq in Hi. simpl in Hi.
  destruct (valid (descAt s (next_hand s))) eqn:Hv;
    [|exfalso; apply Hnc; by left].
  destruct (refbit (descAt s (next_hand s))) eqn:Hr.
  - inversion Hi; subst r s1; clear Hi. eexists. split; [done|].
    split; [done|]. split.
    { eapply sweep_rel_trans; [apply (sweep_rel_set_clockHand s (next_hand s))|].
      apply (sweep_rel_clear_refbit (set_clockHand (next_hand s) s)). }
    split; [done|]. split.
    + by rewrite descAt_set_desc_eq.
    + intros i Hi Hne. by rewrite descAt_set_desc_ne by lia.
  - destruct (pinCnt (descAt s (next_hand s)) =? 0) eqn:Hp.
    { exfalso. apply Hnc. right. by apply Z.eqb_eq in Hp. }
    inversion Hi; subst r s1; clear Hi. eexists. split; [done|].
    split; [done|]. split; [apply sweep_rel_set_clockHand|].
    split; [done|]. split; [|done].
    symmetry. by apply with_refbit_false_id.
Qed.

(** [k] inspections in a row of frames that are no candidates. *)
Lemma allocBuf_loop_skip (k : nat) : forall fuel count s,
  wf s -> 0 < numBufs s -> numBufs s * 2 < UINT32_MOD ->
  Z.of_nat k <= numBufs s ->
  1 <= count -> count + Z.of_nat k <= numBufs s * 2 + 1 ->
  (forall t, 1 <= t <= Z.of_nat k -> ~ candidate s (hand_after s t)) ->
  exists sk,
    allocBuf_loop (k + fuel) count s = allocBuf_loop fuel (count + Z.of_nat k) sk /\
    wf sk /\ sweep_rel s sk /\
    clockHand sk = (if decide (k = 0%nat) then clockHand s
                    else hand_after s (Z.of_nat k)) /\
    (forall t, 1 <= t <= Z.of_nat k ->
       descAt sk (hand_after s t) = with_refbit false (descAt s (hand_after s t))) /\
    (forall i, 0 <= i ->
       (forall t, 1 <= t <= Z.of_nat k -> hand_after s t <> i) ->
       descAt sk i = descAt s i).
Proof.
  pose proof UINT32_MOD_eq as HM.
  induction k as [|k IH]; intros fuel count s Hwf Hn Hb Hk Hc Hck Hnc.
  { exists s. rewrite Z.add_0_r. split; [done|]. split; [done|].
    split; [apply sweep_rel_refl|]. split; [done|]. split; [|done].
    intros t Ht. lia. }
  assert (~ candidate s (next_hand s)) as Hnc1.
  { rewrite next_hand_hand_after by done. apply Hnc. lia. }
  destruct (allocBuf_inspect_skip s Hwf Hn Hnc1)
    as (s1 & Hi & Hwf1 & Hrel1 & Hh1 & Hd1 & Hoth1).
  pose proof Hrel1 as (Hn1 & _).
  rewrite next_hand_hand_after in Hh1, Hd1, Hoth1 by done.
  assert (forall t, hand_after s1 t = hand_after s (t + 1)) as Hshift.
  { intros t. unfold hand_after at 1. rewrite Hh1, Hn1. unfold hand_after.
    rewrite Zplus_mod_idemp_l. f_equal. lia. }
  assert (forall t, 1 <= t <= Z.of_nat k ->
            descAt s1 (hand_after s1 t) = descAt s (hand_after s (t + 1))) as Hsame.
  { intros t Ht. rewrite Hshift. apply Hoth1.
    - apply hand_after_range; lia.
    - apply not_eq_sym, hand_after_ne; lia. }
  destruct (IH fuel (count + 1) s1) as (sk & He & Hwfk & Hrelk & Hhk & Hvis & Hunv);
    try done; try lia.
  { intros t Ht Hcand. apply (Hnc (t + 1)); [lia|].
    unfold candidate in *. by rewrite <- !Hsame by lia. }
  exists sk. split.
  { change (S k + fuel)%nat with (S (k + fuel)). simpl allocBuf_loop.
    rewrite (wrap32_small (numBufs s * 2)) by lia.
    assert ((numBufs s * 2 <? count) = false) as -> by (apply Z.ltb_ge; lia).
    rewrite Hi, (wrap32_small (count + 1)) by lia.
    rewrite He. f_equal. lia. }
  split; [done|]. split; [by eapply sweep_rel_trans|]. split.
  { rewrite decide_False by lia. rewrite Hhk.
    destruct (decide (k = 0%nat)) as [->|_]; [done|].
    rewrite Hshift. f_equal. lia. }
  split.
  - intros t Ht. destruct (decide (t = 1)) as [->|Hne].
    + rewrite Hunv; [exact Hd1 | apply hand_after_range; lia |].
      intros u Hu. rewrite Hshift. apply not_eq_sym, hand_after_ne; lia.
    + replace t with ((t - 1) + 1) by lia. rewrite <- Hshift.
      rewrite Hvis by lia. rewrite Hsame by lia. by rewrite Hshift.
  - intros i Hi0 Hunvis. rewrite Hunv; [|done|].
    + apply Hoth1; [done|]. apply not_eq_sym, Hunvis. lia.
    + intros t Ht. rewrite Hshift. apply Hunvis. lia.
Qed.


(** The loop stops on the first candidate ahead of the hand. *)
Lemma allocBuf_loop_first_candidate fuel count s k :
  wf s -> numBufs s * 2 < UINT32_MOD ->
  1 <= k <= numBufs s ->
  1 <= count -> count + k <= numBufs s * 2 + 1 ->
  (forall t, 1 <= t < k -> ~ candidate s (hand_after s t)) ->
  candidate s (hand_after s k) ->
  let j := hand_after s k in
  let key := (file (descAt s j), page_number (pageAt s j)) in
  exists r s',
    allocBuf_loop (Z.to_nat (k - 1) + S fuel) count s = (count + k, (r, s')) /\
    (valid (descAt s j) = false \/ is_Some (hashTable s !! key) -> r = Ret j) /\
    (valid (descAt s j) = true -> hashTable s !! key = None ->
     r = Throw HashNotFoundException) /\
    clockHand s' = j /\ valid (descAt s' j) = false /\
    (forall t, 1 <= t < k ->
       descAt s' (hand_after s t) = with_refbit false (descAt s (hand_after s t))) /\
    (forall i, 0 <= i -> (forall t, 1 <= t <= k -> hand_after s t <> i) ->
       descAt s' i = descAt s i).
Proof.
  intros Hwf Hb Hk Hc Hck Hnc Hcand j key. pose proof UINT32_MOD_eq as HM.
  assert (0 < numBufs s) as Hn by lia.
  destruct (allocBuf_loop_skip (Z.to_nat (k - 1)) (S fuel) count s)
    as (sk & He & Hwfk & Hrelk & Hhk & Hvis & Hunv); try done; try lia.
  { intros t Ht. apply Hnc. lia. }
  assert (forall s0, allocBuf_inspect sk = (fst (allocBuf_inspect sk), s0) ->
            (forall t, 1 <= t < k ->
               descAt s0 (hand_after s t)
                 = with_refbit false (descAt s (hand_after s t))) /\
            (forall i, 0 <= i -> (forall t, 1 <= t <= k -> hand_after s t <> i) ->
               descAt s0 i = descAt s i)) as Hrest.
  { intros s0 Hs0. pose proof Hrelk as (Hnk0 & _).
    assert (next_hand sk = hand_after s k) as Hnx.
    { rewrite next_hand_hand_after by (done || lia).
      unfold hand_after at 1. rewrite Hhk, Hnk0.
      destruct (decide (Z.to_nat (k - 1) = 0%nat)) as [H0|H0].
      - unfold hand_after. f_equal. lia.
      - unfold hand_after. rewrite Zplus_mod_idemp_l. f_equal. lia. }
    assert (0 < numBufs sk) as Hnk1 by lia.
    split.
    - intros t Ht.
      assert (0 <= hand_after s t) as Hr by (apply hand_after_range; lia).
      assert (hand_after s t <> next_hand sk) as Hd
        by (rewrite Hnx; apply hand_after_ne; lia).
      destruct (allocBuf_inspect_others sk (fst (allocBuf_inspect sk)) s0
                  (hand_after s t) Hnk1 Hs0 Hr Hd) as [-> _].
      apply Hvis. lia.
    - intros i Hi Hne.
      assert (i <> next_hand sk) as Hd
        by (rewrite Hnx; apply not_eq_sym, Hne; lia).
      destruct (allocBuf_inspect_others sk (fst (allocBuf_inspect sk)) s0
                  i Hnk1 Hs0 Hi Hd) as [-> _].
      apply Hunv; [done|]. intros t Ht. apply Hne. lia. }
  rewrite He. clear He.
  destruct (sweep_rel_fields s sk j Hrelk) as (_ & _ & _ & _ & _ & Hpg).
  pose proof Hrelk as (Hnk & Hhash & _).
  pose proof (hand_after_range s k Hn) as Hj. fold j in Hj.
  assert (next_hand sk = j) as Hnext.
  { rewrite next_hand_hand_after by (done || lia).
    unfold hand_after at 1. rewrite Hhk, Hnk.
    destruct (decide (Z.to_nat (k - 1) = 0%nat)) as [H0|H0].
    - unfold j, hand_after. f_equal. lia.
    - unfold j, hand_after. rewrite Zplus_mod_idemp_l. f_equal. lia. }
  assert (descAt sk j = descAt s j) as Hdj.
  { apply Hunv; [lia|]. intros t Ht. apply hand_after_ne; lia. }
  assert (Z.to_nat j < length (bufDescTable sk))%nat as Hlt
    by (apply wf_frame_lt; [done | lia]).
  simpl allocBuf_loop. rewrite Hnk.
  rewrite (wrap32_small (numBufs s * 2)) by lia.
  assert ((numBufs s * 2 <? count + Z.of_nat (Z.to_nat (k - 1))) = false) as ->
    by (apply Z.ltb_ge; lia).
  rewrite wrap32_small by lia.
  replace (count + Z.of_nat (Z.to_nat (k - 1)) + 1) with (count + k) by lia.
  destruct (Hrest (snd (allocBuf_inspect sk))) as [HA HB];
    [by destruct (allocBuf_inspect sk)|].
  revert HA HB.
  rewrite allocBuf_inspect_eq. simpl. rewrite Hnext, Hdj, Hpg, Hhash.
  fold key.
  destruct (valid (descAt s j)) eqn:Hv.
  - destruct Hcand as [Hf | [Hr Hp]]; [fold j in Hf; congruence|].
    fold j in Hr, Hp. rewrite Hr, Hp. simpl.
    destruct (hashTable s !! key) as [fr|] eqn:Hl.
    + destruct (dirty (descAt s j)); simpl; intros HA HB;
        (eexists _, _; split; [done|]; split; [done|]; split; [done|];
         split; [done|]; split; [|split; [exact HA | exact HB]]);
        unfold descAt; simpl; by rewrite list_lookup_insert_eq.
    + destruct (dirty (descAt s j)); simpl; intros HA HB;
        (eexists _, _; split; [done|];
         split; [intros [? | [? ?]]; done|]; split; [done|];
         split; [done|]; split; [|split; [exact HA | exact HB]]);
        unfold descAt; simpl; by rewrite list_lookup_insert_eq.
  - simpl. intros HA HB.
    eexists _, _. split; [done|]. split; [done|]. split; [done|].
    split; [done|]. split; [|split; [exact HA | exact HB]]. simpl.
    change (descAt (set_clockHand j sk) j) with (descAt sk j). by rewrite Hdj.
Qed.


Lemma allocBuf_fuel_split s a :
  wf s -> numBufs s * 2 < UINT32_MOD -> 0 <= a <= numBufs s * 2 ->
  allocBuf_fuel s = (Z.to_nat a + S (Z.to_nat (numBufs s * 2 - a)))%nat.
Proof.
  intros Hwf Hb Ha. pose proof (wf_numBufs _ Hwf).
  unfold allocBuf_fuel. rewrite wrap32_small by lia. lia.
Qed.

(** X1. The victim of [allocBuf] is the first frame, in clock
    order from the hand, that is free or occupied with neither reference bit
    nor pin, when there is one: the search inspects exactly the [k] frames up
    to it, leaves the hand on it, and returns it (it throws
    [HashNotFoundException] instead when the frame is occupied and the page
    table has no entry for its file and content page number). *)
Theorem allocBuf_first_candidate s k :
  wf s -> numBufs s * 2 < UINT32_MOD ->
  1 <= k <= numBufs s ->
  (forall t, 1 <= t < k -> ~ candidate s (hand_after s t)) ->
  candidate s (hand_after s k) ->
  let j := hand_after s k in
  let key := (file (descAt s j), page_number (pageAt s j)) in
  allocBuf_inspected s = k /\
  clockHand (snd (allocBuf s)) = j /\
  valid (descAt (snd (allocBuf s)) j) = false /\
  (valid (descAt s j) = false \/ is_Some (hashTable s !! key) ->
   fst (allocBuf s) = Ret j) /\
  (valid (descAt s j) = true -> hashTable s !! key = None ->
   fst (allocBuf s) = Throw HashNotFoundException).
Proof.
  intros Hwf Hb Hk Hnc Hcand j key.
  destruct (allocBuf_loop_first_candidate (Z.to_nat (numBufs s * 2 - (k - 1))) 1 s k)
    as (r & s' & He & Hret & Hthrow & Hhand & Hfree & _); try done; try lia.
  unfold allocBuf_inspected, allocBuf.
  rewrite (allocBuf_fuel_split s (k - 1)) by (done || lia).
  rewrite He. simpl. split; [lia | done].
Qed.

Lemma allocBuf_first_candidate_witness :
  allocBuf_inspected run_gap3 = 3 /\
  clockHand (snd (allocBuf run_gap3)) = hand_after run_gap3 3.
Proof.
  destruct (allocBuf_first_candidate run_gap3 3) as (H1 & H2 & _).
  - apply reachable_wf, uint32_bound_small. lia.
  - vm_compute. reflexivity.
  - vm_compute. split; discriminate.
  - intros t Ht. assert (t = 1 \/ t = 2) as [-> | ->] by lia;
      vm_compute; intros [H | [H H']]; discriminate.
  - vm_compute. by left.
  - split; [exact H1 | exact H2].
Defined.

(** X2. When every frame is occupied and none is without both
    reference bit and pin, [allocBuf] sweeps the whole pool once, clearing
    the reference bits, and then takes the first unpinned frame in clock
    order from the hand: it inspects exactly [numBufs + k] frames and returns
    the frame [k] steps ahead (or throws [HashNotFoundException] when the
    page table has no entry for that frame's file and content page
    number); every other frame is left with its reference bit clear and its
    descriptor otherwise as it was. *)
Theorem allocBuf_second_chance s k :
  wf s -> numBufs s * 2 < UINT32_MOD ->
  (forall i, 0 <= i < numBufs s -> ~ candidate s i) ->
  1 <= k <= numBufs s ->
  (forall t, 1 <= t < k -> pinCnt (descAt s (hand_after s t)) <> 0) ->
  pinCnt (descAt s (hand_after s k)) = 0 ->
  let j := hand_after s k in
  let key := (file (descAt s j), page_number (pageAt s j)) in
  allocBuf_inspected s = numBufs s + k /\
  clockHand (snd (allocBuf s)) = j /\
  valid (descAt (snd (allocBuf s)) j) = false /\
  (is_Some (hashTable s !! key) -> fst (allocBuf s) = Ret j) /\
  (hashTable s !! key = None -> fst (allocBuf s) = Throw HashNotFoundException) /\
  (forall i, 0 <= i < numBufs s -> i <> j ->
     descAt (snd (allocBuf s)) i = with_refbit false (descAt s i) /\
     refbit (descAt (snd (allocBuf s)) i) = false).
Proof.
  intros Hwf Hb Hnone Hk Hpins Hpin j key. pose proof UINT32_MOD_eq as HM.
  assert (0 < numBufs s) as Hn by lia.
  pose proof (wf_clock _ Hwf Hn) as Hh.
  assert (forall t, valid (descAt s (hand_after s t)) = true) as Hvalid.
  { intros t. destruct (valid (descAt s (hand_after s t))) eqn:Hv; [done|].
    exfalso. apply (Hnone (hand_after s t)); [by apply hand_after_range | by left]. }
  destruct (allocBuf_loop_skip (Z.to_nat (numBufs s))
              (Z.to_nat (k - 1) + S (Z.to_nat (numBufs s - k + 1))) 1 s)
    as (sN & He & HwfN & HrelN & HhN & Hvis & _); try done; try lia.
  { intros t Ht. apply Hnone. by apply hand_after_range. }
  pose proof HrelN as (HnN & HhashN & _).
  assert (clockHand sN = clockHand s) as HhandN.
  { rewrite HhN, decide_False by lia. unfold hand_after.
    rewrite Z2Nat.id by lia.
    replace (clockHand s + numBufs s) with (clockHand s + 1 * numBufs s) by lia.
    rewrite Z_mod_plus_full. apply Z.mod_small. lia. }
  assert (forall t, hand_after sN t = hand_after s t) as Hpos
    by (intros t; unfold hand_after; by rewrite HhandN, HnN).
  assert (forall t, 1 <= t <= numBufs s ->
            descAt sN (hand_after s t) = with_refbit false (descAt s (hand_after s t)))
    as HdN by (intros t Ht; apply Hvis; lia).
  destruct (sweep_rel_fields s sN j HrelN) as (_ & _ & _ & Hfile & _ & Hpg).
  destruct (allocBuf_loop_first_candidate (Z.to_nat (numBufs s - k + 1))
              (1 + Z.of_nat (Z.to_nat (numBufs s))) sN k)
    as (r & s' & He' & Hret & Hthrow & Hhand & Hfree & Hseen & Hunseen);
    try done; try lia.
  { intros t Ht [Hf | [_ Hp]]; rewrite Hpos, HdN in * by lia; simpl in *.
    - by rewrite Hvalid in Hf.
    - by apply (Hpins t). }
  { right. rewrite Hpos, HdN by lia. done. }
  rewrite Hpos in *. fold j in Hret, Hthrow, Hhand, Hfree.
  rewrite Hfile, Hpg, HhashN in Hret, Hthrow. fold key in Hret, Hthrow.
  unfold allocBuf_inspected, allocBuf.
  replace (allocBuf_fuel s)
    with (Z.to_nat (numBufs s) + (Z.to_nat (k - 1) + S (Z.to_nat (numBufs s - k + 1))))%nat
    by (unfold allocBuf_fuel; rewrite wrap32_small by lia; lia).
  rewrite He, He'. simpl.
  split; [lia|]. split; [done|]. split; [done|]. split; [|split].
  - intros Hsome. apply Hret. by right.
  - intros Hnone'. apply Hthrow; [|done].
    unfold j. rewrite HdN by lia. simpl. apply Hvalid.
  - intros i Hi Hij.
    destruct (hand_after_onto s i Hwf Hi) as (t & Ht & <-).
    assert (descAt s' (hand_after s t)
              = with_refbit false (descAt s (hand_after s t))) as ->.
    { destruct (Z_lt_ge_dec t k) as [Hlt|Hge].
      - rewrite <- (Hpos t), Hseen by lia. rewrite Hpos, HdN by lia.
        by destruct (descAt s (hand_after s t)).
      - assert (t <> k) as Hne by (intros ->; by apply Hij).
        rewrite Hunseen; [by rewrite HdN by lia | by apply hand_after_range |].
        intros u Hu. rewrite Hpos. apply hand_after_ne; lia. }
    done.
Qed.

Lemma allocBuf_second_chance_witness :
  allocBuf_inspected run_evict2 = numBufs run_evict2 + 1 /\
  (is_Some (hashTable run_evict2
              !! (file (descAt run_evict2 (hand_after run_evict2 1)),
                  page_number (pageAt run_evict2 (hand_after run_evict2 1)))) ->
   fst (allocBuf run_evict2) = Ret (hand_after run_evict2 1)).
Proof.
  destruct (allocBuf_second_chance run_evict2 1) as (H1 & _ & _ & H2 & _ & _).
  - apply reachable_wf, uint32_bound_small. lia.
  - vm_compute. reflexivity.
  - intros i Hi.
    assert (numBufs run_evict2 = 2) as Hn by (vm_compute; reflexivity).
    rewrite Hn in Hi.
    assert (i = 0 \/ i = 1) as [-> | ->] by lia;
      vm_compute; intros [H | [H H']]; discriminate.
  - vm_compute. split; discriminate.
  - intros t Ht. lia.
  - vm_compute. reflexivity.
  - split; [exact H1 | exact H2].
Defined.


(** ** [advanceClock] *)

Lemma set_clockHand_id s : set_clockHand (clockHand s) s = s.
Proof. by destruct s. Qed.

(** X3. [advanceClock] moves the hand one frame ahead in the circle of
    frames and changes nothing else: [k] calls leave the hand [k] steps
    ahead, modulo [numBufs], and [numBufs] calls bring it back where it
    was. *)
Theorem advanceClock_cycles s k :
  wf s -> 0 < numBufs s ->
  advanceClock_n k s = set_clockHand (hand_after s (Z.of_nat k)) s /\
  0 <= clockHand (advanceClock_n k s) < numBufs s /\
  advanceClock_n (Z.to_nat (numBufs s)) s = s.
Proof.
  intros Hwf Hn. pose proof (wf_numBufs _ Hwf) as HN.
  pose proof (wf_clock _ Hwf Hn) as Hh.
  assert (forall k, advanceClock_n k s
                    = set_clockHand (hand_after s (Z.of_nat k)) s) as Hk.
  { clear k. induction k as [|k IH].
    - simpl. unfold hand_after. rewrite Z.add_0_r, Z.mod_small by lia.
      by rewrite set_clockHand_id.
    - change (advanceClock_n (S k) s)
        with (snd (advanceClock (advanceClock_n k s))).
      rewrite IH.
      unfold advanceClock, modify, set_clockHand; simpl. f_equal.
      pose proof (hand_after_range s (Z.of_nat k) Hn).
      rewrite wrap32_small by lia.
      unfold hand_after. rewrite Zplus_mod_idemp_l. f_equal. lia. }
  split; [apply Hk|]. split.
  - rewrite Hk. simpl. by apply hand_after_range.
  - rewrite Hk, Z2Nat.id by lia. unfold hand_after.
    replace (clockHand s + numBufs s) with (clockHand s + 1 * numBufs s) by lia.
    rewrite Z_mod_plus_full, Z.mod_small by lia. apply set_clockHand_id.
Qed.

Lemma advanceClock_cycles_witness :
  advanceClock_n (Z.to_nat (numBufs run_gap3)) run_gap3 = run_gap3.
Proof.
  apply (advanceClock_cycles run_gap3 0).
  - apply reachable_wf, uint32_bound_small. lia.
  - vm_compute. reflexivity.
Defined.

(** ** The constructor *)

(** X4. A freshly constructed pool is well-formed, its page table is
    empty, every frame is free and carries its own index, and the hand sits
    on the last frame, so that the first search inspects frame 0 and returns
    it at once. *)
Theorem fresh_pool_starts_at_frame_0 bufs d :
  0 < bufs -> bufs * 2 < UINT32_MOD ->
  wf (BufMgr_new bufs d) /\
  hashTable (BufMgr_new bufs d) = ∅ /\
  (forall i, 0 <= i < bufs -> descAt (BufMgr_new bufs d) i = BufDesc_init i) /\
  clockHand (BufMgr_new bufs d) = bufs - 1 /\
  allocBuf (BufMgr_new bufs d) = (Ret 0, set_clockHand 0 (BufMgr_new bufs d)) /\
  allocBuf_inspected (BufMgr_new bufs d) = 1.
Proof.
  intros Hb0 Hb. pose proof UINT32_MOD_eq as HM.
  assert (wf (BufMgr_new bufs d)) as Hwf by (apply wf_BufMgr_new; lia).
  assert (allocBuf (BufMgr_new bufs d) = (Ret 0, set_clockHand 0 (BufMgr_new bufs d)))
    as Ha.
  { pose proof (allocBuf_free_next (BufMgr_new bufs d)) as H.
    rewrite next_hand_BufMgr_new in H by lia.
    apply H; [done | done | apply valid_BufMgr_new]. }
  split; [done|]. split; [done|]. split.
  { intros i Hi. destruct (descAt_BufMgr_new bufs d i) as (k & -> & Hk).
    by rewrite Hk by lia. }
  split; [simpl; apply wrap32_small; lia|]. split; [done|].
  unfold allocBuf_inspected, allocBuf_fuel. simpl.
  rewrite (wrap32_small (bufs * 2)) by lia.
  assert ((bufs * 2 <? 1) = false) as -> by (apply Z.ltb_ge; lia).
  rewrite allocBuf_inspect_eq. simpl.
  fold (next_hand (BufMgr_new bufs d)).
  by rewrite valid_BufMgr_new.
Qed.

Lemma fresh_pool_starts_at_frame_0_witness :
  allocBuf (BufMgr_new 3 disk_ex) = (Ret 0, set_clockHand 0 (BufMgr_new 3 disk_ex)).
Proof.
  apply (fresh_pool_starts_at_frame_0 3 disk_ex).
  - lia.
  - vm_compute. reflexivity.
Defined.

(** X5. A pool constructed with no frame: the hand wraps around to
    [2^32 - 1]; the search gives up before inspecting anything, so every fetch
    of an uncached page fails with [BufferExceededException], and so does
    every [allocPage], which has by then created the page in the file;
    [flushFile] has nothing to do and returns. *)
Theorem empty_pool_rejects_every_fetch d f p :
  clockHand (BufMgr_new 0 d) = UINT32_MOD - 1 /\
  allocBuf_inspected (BufMgr_new 0 d) = 0 /\
  readPage f p (BufMgr_new 0 d) = (Throw BufferExceededException, BufMgr_new 0 d) /\
  fst (allocPage f (BufMgr_new 0 d)) = Throw BufferExceededException /\
  io (snd (allocPage f (BufMgr_new 0 d))) = [EvAllocate f (next_page f d)] /\
  flushFile f (BufMgr_new 0 d) = (Ret tt, BufMgr_new 0 d).
Proof.
  split; [done|]. split; [done|]. split.
  { rewrite readPage_miss by apply lookup_empty. done. }
  done.
Qed.


(** ** What [allocBuf] leaves alone *)

Lemma allocBuf_loop_gave_up fuel : forall count s c' s',
  allocBuf_loop fuel count s = (c', (Throw BufferExceededException, s')) ->
  sweep_rel s s'.
Proof.
  induction fuel as [|fuel IH]; intros count s c' s' H; simpl in H; [done|].
  destruct (wrap32 (numBufs s * 2) <? count).
  { inversion H; subst. apply sweep_rel_refl. }
  destruct (allocBuf_inspect s) as [[[fr|]|e0|] s1] eqn:Hi; try done.
  - apply IH in H. apply allocBuf_inspect_sweep in Hi as [Hrel1 _].
    by eapply sweep_rel_trans.
  - inversion H; subst. by apply allocBuf_inspect_Throw in Hi as (? & _).
Qed.

(** How a call of [allocBuf] ends: after a sweep that only clears reference
    bits, it gives up, or one last inspection selects a frame or throws. *)
Lemma allocBuf_cases s r s' :
  allocBuf s = (r, s') ->
  exists s1, sweep_rel s s1 /\
    ((r = Throw BufferExceededException /\ s' = s1) \/
     (exists frame, r = Ret frame /\
        allocBuf_inspect s1 = (Ret (Some frame), s')) \/
     (r = Throw HashNotFoundException /\
        allocBuf_inspect s1 = (Throw HashNotFoundException, s'))).
Proof.
  intros H. pose proof (allocBuf_terminates s) as Ht. rewrite H in Ht.
  unfold allocBuf in H.
  destruct (allocBuf_loop (allocBuf_fuel s) 1 s) as [c' [r' s'']] eqn:He.
  simpl in H. inversion H; subst r' s''; clear H.
  destruct r as [frame|e|]; [| |done].
  - apply allocBuf_loop_Ret in He as (s1 & Hrel & Hsel).
    exists s1. split; [done|]. right. left. by exists frame.
  - pose proof He as He'.
    apply allocBuf_loop_Throw in He as [-> | (s1 & Hrel & Hsel)].
    + exists s'. split; [by eapply allocBuf_loop_gave_up | by left].
    + pose proof (allocBuf_inspect_Throw _ _ _ Hsel) as (-> & _).
      exists s1. split; [done|]. by right; right.
Qed.

(** What the last inspection does to the frames it is not on. *)
Lemma allocBuf_outcome_and_frame s r s' :
  wf s -> allocBuf s = (r, s') ->
  numBufs s' = numBufs s /\ bufPool s' = bufPool s /\
  (forall key frame, hashTable s' !! key = Some frame ->
     hashTable s !! key = Some frame) /\
  (forall i, 0 <= i -> i <> clockHand s' ->
     with_refbit false (descAt s' i) = with_refbit false (descAt s i) /\
     (refbit (descAt s' i) = true -> refbit (descAt s i) = true)) /\
  (io s' = io s \/ exists g pg, io s' = io s ++ [EvWrite g pg]) /\
  match r with
  | Ret frame =>
      0 <= frame < numBufs s /\ clockHand s' = frame /\
      valid (descAt s' frame) = false
  | Throw e => e = BufferExceededException \/ e = HashNotFoundException
  | OutOfFuel => False
  end.
Proof.
  intros Hwf H. pose proof (wf_numBufs _ Hwf) as HN.
  destruct (allocBuf_frame _ _ _ H) as [Hn Hpool].
  split; [done|]. split; [done|].
  destruct (decide (numBufs s = 0)) as [Hz|Hz].
  { unfold allocBuf in H. rewrite allocBuf_empty_pool in H by done.
    inversion H; subst. split_and!; try done; [by left | by left]. }
  destruct (allocBuf_cases s r s' H) as (s1 & Hrel & Hcase).
  pose proof Hrel as (Hn1 & Hh1 & _ & _ & Hio1 & _ & Hd1).
  assert (0 < numBufs s1) as Hn1' by lia.
  assert (forall e, allocBuf_inspect s1 = (e, s') ->
            clockHand s' = next_hand s1 /\
            (forall key frame, hashTable s' !! key = Some frame ->
               hashTable s !! key = Some frame) /\
            (io s' = io s \/ exists g pg, io s' = io s ++ [EvWrite g pg]) /\
            (valid (descAt s1 (next_hand s1)) = true ->
             e <> Ret None -> valid (descAt s' (next_hand s1)) = false)) as Hlast.
  { intros e He. rewrite allocBuf_inspect_eq in He. simpl in He.
    rewrite <- Hh1, <- Hio1.
    assert (Z.to_nat (next_hand s1) < length (bufDescTable s1))%nat as Hlt.
    { destruct Hrel as (_ & _ & _ & _ & _ & -> & _).
      apply wf_frame_lt; [done|]. rewrite <- Hn1. by apply next_hand_range. }
    destruct (valid (descAt s1 (next_hand s1)));
      [|inversion He; subst; split_and!; try done; by left].
    destruct (refbit (descAt s1 (next_hand s1))).
    { inversion He; subst. split_and!; try done; by left. }
    destruct (pinCnt (descAt s1 (next_hand s1)) =? 0);
      [|inversion He; subst; split_and!; try done; by left].
    destruct (hashTable s1 !! _) eqn:Hl; inversion He; subst; clear He;
      destruct (dirty (descAt s1 (next_hand s1))); simpl;
      (split; [done|]); (split; [try done; intros key fr Hk;
                                 by apply lookup_delete_Some in Hk as [_ ?]|]);
      (split; [first [by left | right; eauto]|]);
      intros _ _; unfold descAt; simpl; by rewrite list_lookup_insert_eq. }
  assert (forall e, allocBuf_inspect s1 = (e, s') ->
            forall i, 0 <= i -> i <> clockHand s' ->
              with_refbit false (descAt s' i) = with_refbit false (descAt s i) /\
              (refbit (descAt s' i) = true -> refbit (descAt s i) = true)) as Hoth.
  { intros e He i Hi Hne. destruct (Hlast e He) as (Hhand & _).
    rewrite Hhand in Hne.
    destruct (allocBuf_inspect_others s1 e s' i Hn1' He Hi Hne) as [-> _].
    apply Hd1. }
  destruct Hcase as [[-> ->] | [(frame & -> & Hsel) | [-> Hthr]]].
  - split; [by intros key fr; rewrite Hh1|]. split; [intros i _ _; apply Hd1|].
    split; [left; done | by left].
  - destruct (Hlast _ Hsel) as (Hhand & Hsub & Hio & Hfree).
    split; [done|]. split; [by apply (Hoth _ Hsel)|]. split; [done|].
    pose proof (allocBuf_inspect_Some _ _ _ Hsel) as [Hfr Hc].
    rewrite <- Hfr in Hhand, Hfree. split; [|split; [done|]].
    + rewrite Hfr, <- Hn1. by apply next_hand_range.
    + destruct Hc as [(Hv & ->) | (Hv & _)]; [done | by apply Hfree].
  - destruct (Hlast _ Hthr) as (Hhand & Hsub & Hio & _).
    split; [done|]. split; [by apply (Hoth _ Hthr)|]. split; [done | by right].
Qed.

(** X6. Whatever its outcome, [allocBuf] leaves the pool contents
    alone, adds no page-table entry, makes at most one call on a file (a
    write), and changes nothing in the descriptors of the frames other than
    the one the hand ends on, except that it may clear their reference
    bits. It ends by returning a frame in range, which the hand is on and
    which is then free, or by throwing [BufferExceededException] or
    [HashNotFoundException]; the loop never runs on. *)
Theorem allocBuf_effect s r s' :
  wf s -> allocBuf s = (r, s') ->
  numBufs s' = numBufs s /\ bufPool s' = bufPool s /\
  (forall key frame, hashTable s' !! key = Some frame ->
     hashTable s !! key = Some frame) /\
  (forall i, 0 <= i -> i <> clockHand s' ->
     with_refbit false (descAt s' i) = with_refbit false (descAt s i) /\
     (refbit (descAt s' i) = true -> refbit (descAt s i) = true)) /\
  (io s' = io s \/ exists g pg, io s' = io s ++ [EvWrite g pg]) /\
  match r with
  | Ret frame =>
      0 <= frame < numBufs s /\ clockHand s' = frame /\
      valid (descAt s' frame) = false
  | Throw e => e = BufferExceededException \/ e = HashNotFoundException
  | OutOfFuel => False
  end.
Proof. apply allocBuf_outcome_and_frame. Qed.

Lemma allocBuf_effect_witness :
  bufPool (snd (allocBuf run_evict2)) = bufPool run_evict2 /\
  exists g pg, io (snd (allocBuf run_evict2)) = io run_evict2 ++ [EvWrite g pg].
Proof.
  destruct (allocBuf_effect run_evict2 (fst (allocBuf run_evict2))
              (snd (allocBuf run_evict2))) as (_ & Hp & _ & _ & Hio & _).
  - apply reachable_wf, uint32_bound_small. lia.
  - vm_compute. reflexivity.
  - split; [exact Hp|]. destruct Hio as [Hio | Hio]; [|exact Hio].
    vm_compute in Hio. discriminate.
Defined.


(** ** Pins protect pages *)

Lemma same_but_refbit d d' :
  with_refbit false d' = with_refbit false d ->
  valid d' = valid d /\ pinCnt d' = pinCnt d /\ file d' = file d /\
  pageNo d' = pageNo d /\ dirty d' = dirty d.
Proof.
  unfold with_refbit. intros [= H1 H2 H3 H4 H5 H6]. by repeat split.
Qed.

Lemma allocBuf_keeps_pinned s r s' i :
  wf s -> allocBuf s = (r, s') ->
  0 <= i -> valid (descAt s i) = true -> pinCnt (descAt s i) <> 0 ->
  with_refbit false (descAt s' i) = with_refbit false (descAt s i) /\
  pageAt s' i = pageAt s i /\
  (forall frame, r = Ret frame -> frame <> i).
Proof.
  intros Hwf H Hi Hv Hp. pose proof (wf_numBufs _ Hwf) as HN.
  destruct (decide (numBufs s = 0)) as [Hz|Hz].
  { unfold allocBuf in H. rewrite allocBuf_empty_pool in H by done.
    by inversion H; subst. }
  destruct (allocBuf_cases s r s' H) as (s1 & Hrel & Hcase).
  destruct (sweep_rel_fields s s1 i Hrel) as (Hv1 & Hp1 & _ & _ & _ & Hpg1).
  pose proof Hrel as (Hn1 & _ & _ & _ & _ & _ & Hd1).
  assert (0 < numBufs s1) as Hn1' by lia.
  destruct Hcase as [[-> ->] | [(frame & -> & Hsel) | [-> Hthr]]].
  - split; [apply Hd1|]. split; [done | by intros frame].
  - pose proof (allocBuf_inspect_Some _ _ _ Hsel) as [Hfr Hc].
    assert (i <> frame) as Hne.
    { intros <-. destruct Hc as [(Hf & _) | (_ & _ & Hz' & _)]; congruence. }
    rewrite Hfr in Hne.
    destruct (allocBuf_inspect_others s1 _ s' i Hn1' Hsel Hi Hne) as [-> ->].
    split; [apply Hd1|]. split; [done|].
    intros frame' [= <-]. rewrite Hfr. by apply not_eq_sym.
  - pose proof (allocBuf_inspect_Throw _ _ _ Hthr) as (_ & _ & _ & Hz' & _).
    assert (i <> next_hand s1) as Hne by (intros ->; congruence).
    destruct (allocBuf_inspect_others s1 _ s' i Hn1' Hthr Hi Hne) as [-> ->].
    split; [apply Hd1|]. split; [done | by intros frame].
Qed.

Lemma allocPage_eq file s :
  allocPage file s =
    let p := next_page file (disk s) in
    let newPage := mkPage p EmptyString in
    let s0 := set_files (<[(file, p) := newPage]> (disk s))
                        (io s ++ [EvAllocate file p]) s in
    match allocBuf s0 with
    | (Ret frame, s1) =>
        let s2 := set_page frame newPage s1 in
        match hashTable s1 !! (file, p) with
        | Some _ => (Throw HashAlreadyPresentException, s2)
        | None =>
            (Ret (p, frame),
             set_desc frame (Set_ file p (descAt s1 frame))
               (set_hashTable (<[(file, p) := frame]> (hashTable s1)) s2))
        end
    | (Throw e, s1) => (Throw e, s1)
    | (OutOfFuel, s1) => (OutOfFuel, s1)
    end.
Proof.
  unfold allocPage, File_allocatePage. unfold bind at 1. unfold bind at 1.
  simpl. destruct (allocBuf _) as [[frame|e|] s1]; try done.
  unfold bind, modify, hashTable_insert, get, ret; simpl.
  by destruct (hashTable s1 !! _).
Qed.

Lemma pageAt_set_page_other s i j pg :
  0 <= i -> 0 <= j -> i <> j -> pageAt (set_page i pg s) j = pageAt s j.
Proof.
  intros Hi Hj Hne. unfold pageAt, set_page; simpl.
  rewrite list_lookup_insert_ne; [done | lia].
Qed.

(** X7. A frame that is occupied and pinned keeps its page through
    [readPage], [unPinPage], [allocPage] and [flushFile], whatever their
    arguments and outcome: same content in the pool slot, same owner, still
    occupied; and only [unPinPage] can lower its pin count. *)
Theorem pinned_frame_keeps_page o s i :
  wf s -> 0 <= i < numBufs s ->
  valid (descAt s i) = true -> pinCnt (descAt s i) <> 0 ->
  (forall f p, o <> OpDisposePage f p) ->
  pageAt (step o s) i = pageAt s i /\
  valid (descAt (step o s) i) = true /\
  file (descAt (step o s) i) = file (descAt s i) /\
  pageNo (descAt (step o s) i) = pageNo (descAt s i) /\
  ((forall f p m, o <> OpUnPinPage f p m) ->
   pinCnt (descAt s i) <= pinCnt (descAt (step o s) i)).
Proof.
  intros Hwf Hi Hv Hp Hnd.
  assert (Z.to_nat i < length (bufDescTable s))%nat as Hlt by (by apply wf_frame_lt).
  assert (forall s', (descAt s' i = descAt s i) -> pageAt s' i = pageAt s i ->
            pageAt s' i = pageAt s i /\ valid (descAt s' i) = true /\
            file (descAt s' i) = file (descAt s i) /\
            pageNo (descAt s' i) = pageNo (descAt s i) /\
            ((forall f p m, o <> OpUnPinPage f p m) ->
             pinCnt (descAt s i) <= pinCnt (descAt s' i))) as Hsame.
  { intros s' -> ->. split_and!; try done. }
  assert (forall s', with_refbit false (descAt s' i) = with_refbit false (descAt s i) ->
            pageAt s' i = pageAt s i ->
            pageAt s' i = pageAt s i /\ valid (descAt s' i) = true /\
            file (descAt s' i) = file (descAt s i) /\
            pageNo (descAt s' i) = pageNo (descAt s i) /\
            ((forall f p m, o <> OpUnPinPage f p m) ->
             pinCnt (descAt s i) <= pinCnt (descAt s' i))) as Hmod.
  { intros s' Hd Hpg. apply same_but_refbit in Hd as (Hv' & Hp' & Hf' & Hn' & _).
    rewrite Hv', Hp', Hf', Hn'. split_and!; try done. }
  destruct o as [f p|f p m|f|f|f p]; simpl; [| | | |by destruct (Hnd f p)].
  - (* readPage *)
    destruct (hashTable s !! (f, p)) as [fr|] eqn:Hh.
    + rewrite (readPage_hit _ _ _ _ Hh). simpl.
      pose proof (wf_hash _ Hwf _ _ Hh) as Hfr.
      destruct (decide (fr = i)) as [->|Hne].
      * rewrite descAt_set_desc_eq by done. simpl.
        split_and!; try done. intros _. lia.
      * apply Hsame; [by rewrite descAt_set_desc_ne by lia | done].
    + rewrite (readPage_miss _ _ _ Hh).
      destruct (allocBuf s) as [r s1] eqn:Ha.
      destruct (allocBuf_keeps_pinned s r s1 i Hwf Ha) as (Hd & Hpg & Hfr);
        [lia | done | done |].
      pose proof (wf_numBufs _ Hwf) as HN.
      destruct r as [frame|e|]; [|by apply Hmod|by apply Hmod].
      specialize (Hfr frame eq_refl).
      apply allocBuf_Ret in Ha as [Hrange _]; [|done].
      destruct (disk s1 !! (f, p)) as [pg|]; [|by apply Hmod].
      simpl. destruct (hashTable s1 !! (f, p)); simpl.
      * apply Hmod; [done|].
        rewrite pageAt_set_page_other by lia. done.
      * apply Hmod.
        -- by rewrite descAt_set_desc_ne by lia.
        -- change (pageAt (set_desc frame ?d (set_hashTable ?h ?x)) i)
             with (pageAt x i).
           by rewrite pageAt_set_page_other by lia.
  - (* unPinPage *)
    rewrite unPinPage_eq.
    destruct (hashTable s !! (f, p)) as [fr|] eqn:Hh; [|by apply Hsame].
    simpl. destruct (pinCnt (descAt s fr) =? 0); [by apply Hsame|]. simpl.
    pose proof (wf_hash _ Hwf _ _ Hh) as Hfr.
    destruct (decide (fr = i)) as [->|Hne].
    + rewrite descAt_set_desc_eq by done. simpl.
      split_and!; try done. intros Hno. by destruct (Hno f p m).
    + apply Hsame; [by rewrite descAt_set_desc_ne by lia | done].
  - (* allocPage *)
    rewrite allocPage_eq. simpl.
    set (s0 := set_files _ _ s).
    assert (wf s0) as Hwf0 by (by apply wf_set_files).
    destruct (allocBuf s0) as [r s1] eqn:Ha.
    destruct (allocBuf_keeps_pinned s0 r s1 i Hwf0 Ha) as (Hd & Hpg & Hfr);
      [lia | done | done |].
    change (descAt s0 i) with (descAt s i) in Hd.
    change (pageAt s0 i) with (pageAt s i) in Hpg.
    destruct r as [frame|e|]; [|by apply Hmod|by apply Hmod].
    specialize (Hfr frame eq_refl).
    apply allocBuf_Ret in Ha as [Hrange _]; [|done].
    destruct (hashTable s1 !! _); simpl.
    + apply Hmod; [done|]. by rewrite pageAt_set_page_other by lia.
    + apply Hmod.
      * by rewrite descAt_set_desc_ne by lia.
      * change (pageAt (set_desc frame ?d (set_hashTable ?h ?x)) i)
          with (pageAt x i).
        by rewrite pageAt_set_page_other by lia.
  - (* flushFile *)
    destruct (all_flushable_cases s) as [Hall | (k & Hk & Hok & Hstop)].
    { destruct (Hall i Hi) as [Hz _]. done. }
    assert (k <= i) as Hki.
    { destruct (Z_le_gt_dec k i) as [?|Hgt]; [done|].
      destruct (Hok i) as [Hz _]; [lia | done]. }
    rewrite (flushFile_stops f s k Hwf Hk Hok Hstop). simpl.
    destruct (flush_frames_spec f (Z.to_nat k) 0 s Hwf) as
      (_ & _ & G2 & _ & G4 & _); [lia | lia |].
    rewrite Z2Nat.id in G2, G4 by lia.
    apply Hsame.
    + rewrite G4 by lia. by rewrite decide_False by lia.
    + unfold pageAt. by rewrite G2.
Qed.

Lemma pinned_frame_keeps_page_witness :
  pageAt (step (OpReadPage file1 3) run_evict2) 1 = pageAt run_evict2 1 /\
  valid (descAt (step (OpReadPage file1 3) run_evict2) 1) = true.
Proof.
  destruct (pinned_frame_keeps_page (OpReadPage file1 3) run_evict2 1)
    as (H1 & H2 & _).
  - apply reachable_wf, uint32_bound_small. lia.
  - vm_compute. split; [discriminate | reflexivity].
  - vm_compute. reflexivity.
  - vm_compute. discriminate.
  - intros f p. discriminate.
  - split; [exact H1 | exact H2].
Defined.


(** ** Fetching *)

(** X8. A fetch that misses and returns has loaded the page: the frame
    it returns is the one [allocBuf] chose, in range and under the hand; the
    page table is the one [allocBuf] left with the page mapped to that
    frame; the slot holds the content the file has for the page, the
    descriptor names the page with one pin, the reference bit set and the
    modified flag clear; the read is the last call made on a file; the
    other slots of the pool keep their content and the other descriptors are
    as [allocBuf] left them. *)
Theorem readPage_miss_loads f p s frame s' :
  wf s -> hashTable s !! (f, p) = None ->
  readPage f p s = (Ret frame, s') ->
  0 <= frame < numBufs s /\
  fst (allocBuf s) = Ret frame /\ clockHand s' = frame /\
  hashTable s' = <[(f, p) := frame]> (hashTable (snd (allocBuf s))) /\
  hashTable s' !! (f, p) = Some frame /\
  (forall i, 0 <= i -> i <> frame ->
     descAt s' i = descAt (snd (allocBuf s)) i) /\
  disk s' !! (f, p) = Some (pageAt s' frame) /\
  file (descAt s' frame) = f /\ pageNo (descAt s' frame) = p /\
  pinCnt (descAt s' frame) = 1 /\ dirty (descAt s' frame) = false /\
  refbit (descAt s' frame) = true /\ valid (descAt s' frame) = true /\
  (exists pre, io s' = pre ++ [EvRead f p]) /\
  (forall i, 0 <= i -> i <> frame -> pageAt s' i = pageAt s i).
Proof.
  intros Hwf Hh H. rewrite (readPage_miss _ _ _ Hh) in H.
  destruct (allocBuf s) as [[frame0|e|] s1] eqn:Ha; try done.
  destruct (disk s1 !! (f, p)) as [pg|] eqn:Hdisk; [|done].
  simpl in H. destruct (hashTable s1 !! (f, p)); [done|].
  inversion H; subst frame0 s'; clear H.
  pose proof (allocBuf_wf _ _ _ Hwf Ha) as Hwf1.
  pose proof (allocBuf_frame _ _ _ Ha) as [Hn Hpool].
  pose proof (allocBuf_Ret _ _ _ Hwf Ha) as [Hfr _].
  destruct (allocBuf_outcome_and_frame s _ s1 Hwf Ha)
    as (_ & _ & _ & _ & _ & _ & Hhand1 & _).
  split; [done|]. split; [done|]. split; [done|]. split; [done|].
  split; [simpl; apply lookup_insert_eq|].
  split.
  { intros i Hi Hne. simpl snd. by rewrite descAt_set_desc_ne by lia. }
  assert (Z.to_nat frame < length (bufPool s1))%nat as Hlp
    by (rewrite (wf_pool _ Hwf1); lia).
  rewrite descAt_set_desc_eq by (simpl; rewrite (wf_descs _ Hwf1); lia).
  simpl. split_and!; try done.
  - rewrite Hdisk. f_equal. unfold pageAt; simpl.
    by rewrite list_lookup_insert_eq.
  - by eexists.
  - intros i Hi Hne. unfold pageAt; simpl.
    rewrite list_lookup_insert_ne by lia. by rewrite Hpool.
Qed.

Lemma readPage_miss_loads_witness :
  disk (snd (readPage file1 3 run_evict2)) !! (file1, 3)
    = Some (pageAt (snd (readPage file1 3 run_evict2)) 0) /\
  pinCnt (descAt (snd (readPage file1 3 run_evict2)) 0) = 1.
Proof.
  destruct (readPage_miss_loads file1 3 run_evict2 0
              (snd (readPage file1 3 run_evict2)))
    as (_ & _ & _ & _ & _ & _ & H1 & _ & _ & H2 & _).
  - apply reachable_wf, uint32_bound_small. lia.
  - vm_compute. reflexivity.
  - vm_compute. reflexivity.
  - split; [exact H1 | exact H2].
Defined.

(** X9. When [readPage] ends in the file's [InvalidPageException], the
    page asked for was not cached and is not in the file, and the search had
    already run: the frame it chose (the hand is on it) has been given up
    and stays free, although nothing was loaded into it. *)
Theorem readPage_missing_page_evicts_anyway f p s q s' :
  wf s -> readPage f p s = (Throw (InvalidPageException q), s') ->
  q = p /\ hashTable s !! (f, p) = None /\
  allocBuf s = (Ret (clockHand s'), s') /\
  disk s' !! (f, p) = None /\ hashTable s' !! (f, p) = None /\
  valid (descAt s' (clockHand s')) = false /\
  bufPool s' = bufPool s.
Proof.
  intros Hwf H.
  destruct (hashTable s !! (f, p)) as [fr|] eqn:Hh.
  { by rewrite (readPage_hit _ _ _ _ Hh) in H. }
  rewrite (readPage_miss _ _ _ Hh) in H.
  destruct (allocBuf s) as [[frame|e|] s1] eqn:Ha; try done.
  - destruct (disk s1 !! (f, p)) as [pg|] eqn:Hdisk.
    { simpl in H. by destruct (hashTable s1 !! (f, p)). }
    inversion H; subst q s'; clear H.
    destruct (allocBuf_outcome_and_frame s _ s1 Hwf Ha)
      as (_ & Hpool & _ & _ & _ & _ & Hhand & Hfree).
    rewrite Hhand. split_and!; try done.
    by eapply allocBuf_hash_None.
  - inversion H; subst.
    destruct (allocBuf_outcome_and_frame s _ s' Hwf Ha)
      as (_ & _ & _ & _ & _ & [? | ?]); done.
Qed.

Lemma readPage_missing_page_evicts_anyway_witness :
  allocBuf run_evict2
    = (Ret (clockHand (snd (readPage file1 9 run_evict2))),
       snd (readPage file1 9 run_evict2)) /\
  valid (descAt (snd (readPage file1 9 run_evict2))
           (clockHand (snd (readPage file1 9 run_evict2)))) = false.
Proof.
  destruct (readPage_missing_page_evicts_anyway file1 9 run_evict2 9
              (snd (readPage file1 9 run_evict2)))
    as (_ & _ & H1 & _ & _ & H2 & _).
  - apply reachable_wf, uint32_bound_small. lia.
  - vm_compute. reflexivity.
  - split; [exact H1 | exact H2].
Defined.

(** X10. Fetching a cached page and releasing it unmodified brings
    the manager back to the state it was in, but for the reference bit of
    the page's frame, which is now set. *)
Theorem readPage_unPinPage_roundtrip f p s frame :
  wf s -> hashTable s !! (f, p) = Some frame ->
  readPage f p s = (Ret frame, snd (readPage f p s)) /\
  unPinPage f p false (snd (readPage f p s))
    = (Ret tt, set_desc frame (with_refbit true (descAt s frame)) s).
Proof.
  intros Hwf Hh. rewrite (readPage_hit _ _ _ _ Hh). simpl. split; [done|].
  pose proof (wf_hash _ Hwf _ _ Hh) as Hfr.
  pose proof (wf_pins _ Hwf frame) as Hp.
  rewrite unPinPage_eq. simpl. rewrite Hh. simpl.
  rewrite descAt_set_desc_eq by (by apply wf_frame_lt). simpl.
  assert ((pinCnt (descAt s frame) + 1 =? 0) = false) as ->
    by (apply Z.eqb_neq; lia).
  f_equal. unfold set_desc, set_bufDescTable; simpl.
  rewrite list_insert_insert_eq. do 2 f_equal.
  destruct (descAt s frame); unfold with_pinCnt, with_dirty, with_refbit; simpl.
  f_equal. lia.
Qed.

Lemma readPage_unPinPage_roundtrip_witness :
  unPinPage file1 2 false (snd (readPage file1 2 run_evict2))
    = (Ret tt, set_desc 1 (with_refbit true (descAt run_evict2 1)) run_evict2).
Proof.
  apply (readPage_unPinPage_roundtrip file1 2 run_evict2 1).
  - apply reachable_wf, uint32_bound_small. lia.
  - vm_compute. reflexivity.
Defined.

(** X11. A page loaded by a miss has exactly one pin: its first release
    returns, a second release right after it throws
    [PageNotPinnedException] and changes nothing; and a second fetch of the
    page is a hit on the same frame, without any call on the file. *)
Theorem readPage_miss_then_release_twice f p s frame s1 m m' :
  wf s -> hashTable s !! (f, p) = None ->
  readPage f p s = (Ret frame, s1) ->
  (exists s2,
     unPinPage f p m s1 = (Ret tt, s2) /\
     pinCnt (descAt s2 frame) = 0 /\
     unPinPage f p m' s2 = (Throw (PageNotPinnedException p frame), s2)) /\
  (exists s2,
     readPage f p s1 = (Ret frame, s2) /\ io s2 = io s1 /\
     bufPool s2 = bufPool s1 /\ pinCnt (descAt s2 frame) = 2).
Proof.
  intros Hwf Hh H.
  pose proof (readPage_wf _ _ _ _ _ Hwf H) as Hwf1.
  rewrite (readPage_miss _ _ _ Hh) in H.
  destruct (allocBuf s) as [[frame0|e|] s0] eqn:Ha; try done.
  destruct (disk s0 !! (f, p)) as [pg|] eqn:Hdisk; [|done].
  simpl in H. destruct (hashTable s0 !! (f, p)); [done|].
  injection H as -> Hs1.
  pose proof (allocBuf_wf _ _ _ Hwf Ha) as Hwf0.
  pose proof (allocBuf_frame _ _ _ Ha) as [Hn _].
  pose proof (allocBuf_Ret _ _ _ Hwf Ha) as [Hfr _].
  assert (hashTable s1 !! (f, p) = @Some FrameId frame) as Hh1
    by (rewrite <- Hs1; simpl; apply lookup_insert_eq).
  assert (Z.to_nat frame < length (bufDescTable s1))%nat as Hlt.
  { apply wf_frame_lt; [done|]. rewrite <- Hs1; simpl. lia. }
  assert (descAt s1 frame = Set_ f p (descAt s0 frame)) as Hd1.
  { rewrite <- Hs1. rewrite descAt_set_desc_eq; [done|].
    simpl. rewrite (wf_descs _ Hwf0). lia. }
  split.
  - rewrite unPinPage_eq, Hh1. simpl. rewrite Hd1. simpl.
    eexists. split; [done|].
    rewrite descAt_set_desc_eq by done. simpl. split; [done|].
    rewrite unPinPage_eq. simpl. rewrite Hh1. simpl.
    by rewrite descAt_set_desc_eq by done.
  - rewrite (readPage_hit _ _ _ _ Hh1). eexists. split; [done|].
    rewrite descAt_set_desc_eq by done. by rewrite Hd1.
Qed.

Lemma readPage_miss_then_release_twice_witness :
  exists s2,
    unPinPage file1 3 false (snd (readPage file1 3 run_evict2)) = (Ret tt, s2) /\
    pinCnt (descAt s2 0) = 0 /\
    unPinPage file1 3 true s2 = (Throw (PageNotPinnedException 3 0), s2).
Proof.
  apply (readPage_miss_then_release_twice file1 3 run_evict2 0
           (snd (readPage file1 3 run_evict2)) false true).
  - apply reachable_wf, uint32_bound_small. lia.
  - vm_compute. reflexivity.
  - vm_compute. reflexivity.
Defined.


(** ** [allocPage] *)

(** X12. An [allocPage] that returns hands back the number the file gave
    the new page and the frame that holds it: the page table maps the page to
    that frame, the slot holds the new page, the descriptor names it with one
    pin, the reference bit set and the modified flag clear; the allocation
    is the first call it made on a file. *)
Theorem allocPage_returns_pinned_page f s p frame s' :
  wf s -> allocPage f s = (Ret (p, frame), s') ->
  p = next_page f (disk s) /\ 0 <= frame < numBufs s /\
  hashTable s' !! (f, p) = Some frame /\
  pageAt s' frame = mkPage p EmptyString /\
  file (descAt s' frame) = f /\ pageNo (descAt s' frame) = p /\
  pinCnt (descAt s' frame) = 1 /\ dirty (descAt s' frame) = false /\
  refbit (descAt s' frame) = true /\ valid (descAt s' frame) = true /\
  (exists post, io s' = io s ++ EvAllocate f p :: post).
Proof.
  intros Hwf H. rewrite allocPage_eq in H. simpl in H.
  set (s0 := set_files _ _ s) in H.
  assert (wf s0) as Hwf0 by (by apply wf_set_files).
  destruct (allocBuf s0) as [[frame0|e|] s1] eqn:Ha; try done.
  destruct (hashTable s1 !! _) eqn:Hh1; [done|].
  injection H as <- <- <-.
  pose proof (allocBuf_wf _ _ _ Hwf0 Ha) as Hwf1.
  destruct (allocBuf_outcome_and_frame s0 _ s1 Hwf0 Ha)
    as (Hn & _ & _ & _ & Hio & Hfr & _).
  change (numBufs s0) with (numBufs s) in Hn, Hfr.
  split; [done|]. split; [done|]. split; [simpl; apply lookup_insert_eq|].
  rewrite descAt_set_desc_eq by (simpl; rewrite (wf_descs _ Hwf1); lia).
  split.
  { unfold pageAt; simpl. rewrite list_lookup_insert_eq; [done|].
    rewrite (wf_pool _ Hwf1). lia. }
  simpl. split_and!; try done.
  destruct Hio as [-> | (g & pg & ->)].
  - by exists [].
  - exists [EvWrite g pg]. simpl. by rewrite <- app_assoc.
Qed.

Lemma allocPage_returns_pinned_page_witness :
  hashTable (snd (allocPage file1 run_evict2)) !! (file1, 5) = Some 0 /\
  pageAt (snd (allocPage file1 run_evict2)) 0 = mkPage 5 EmptyString.
Proof.
  destruct (allocPage_returns_pinned_page file1 run_evict2 5 0
              (snd (allocPage file1 run_evict2))) as (_ & _ & H1 & H2 & _).
  - apply reachable_wf, uint32_bound_small. lia.
  - vm_compute. reflexivity.
  - split; [exact H1 | exact H2].
Defined.

(** X13. [allocPage] asks the file for the new page before it looks for
    a frame: when every frame is occupied and pinned it throws
    [BufferExceededException] with the page already created in the file, and
    nothing of it in the pool or the page table. *)
Theorem allocPage_full_pool_leaves_page_in_file f s :
  wf s -> numBufs s * 2 < UINT32_MOD -> all_pinned s ->
  exists s',
    allocPage f s = (Throw BufferExceededException, s') /\
    disk s' = <[(f, next_page f (disk s)) := mkPage (next_page f (disk s)) EmptyString]>
                (disk s) /\
    io s' = io s ++ [EvAllocate f (next_page f (disk s))] /\
    hashTable s' = hashTable s /\ bufPool s' = bufPool s.
Proof.
  intros Hwf Hb Hall. rewrite allocPage_eq. simpl.
  set (s0 := set_files _ _ s).
  assert (wf s0) as Hwf0 by (by apply wf_set_files).
  destruct (allocBuf_all_pinned s0 Hwf0 Hb Hall)
    as (s' & He & (_ & Hh & Hp & Hd & Hio & _)).
  unfold allocBuf. rewrite He. simpl. by exists s'.
Qed.

Lemma allocPage_full_pool_leaves_page_in_file_witness :
  exists s',
    allocPage file1 run_pinned1 = (Throw BufferExceededException, s') /\
    disk s' = <[(file1, next_page file1 (disk run_pinned1))
                  := mkPage (next_page file1 (disk run_pinned1)) EmptyString]>
                (disk run_pinned1) /\
    io s' = io run_pinned1 ++ [EvAllocate file1 (next_page file1 (disk run_pinned1))] /\
    hashTable s' = hashTable run_pinned1 /\ bufPool s' = bufPool run_pinned1.
Proof.
  apply (allocPage_full_pool_leaves_page_in_file file1 run_pinned1).
  - apply reachable_wf, uint32_bound_small. lia.
  - vm_compute. reflexivity.
  - intros i Hi.
    assert (numBufs run_pinned1 = 1) as Hn by (vm_compute; reflexivity).
    rewrite Hn in Hi. assert (i = 0) as -> by lia.
    vm_compute. split; [reflexivity | discriminate].
Defined.

(** ** [disposePage] *)

(** X14. [disposePage] never throws and never writes: it drops the
    page's entry from the page table, clears the frame the entry named,
    whatever its pin count and modified flag, leaves the other frames and the
    pool as they are, and its only call on the file is the deletion. For a
    page that is not cached that call is all it does. A release of the page
    afterwards ends in [HashNotFoundException]. *)
Theorem disposePage_ignores_pins f p s :
  wf s ->
  exists s',
    disposePage f p s = (Ret tt, s') /\
    io s' = io s ++ [EvDelete f p] /\
    disk s' = delete (f, p) (disk s) /\
    hashTable s' = delete (f, p) (hashTable s) /\
    bufPool s' = bufPool s /\ clockHand s' = clockHand s /\
    (forall frame, hashTable s !! (f, p) = Some frame ->
       descAt s' frame = clear (descAt s frame) /\
       forall i, 0 <= i -> i <> frame -> descAt s' i = descAt s i) /\
    (hashTable s !! (f, p) = None -> bufDescTable s' = bufDescTable s) /\
    (forall m, unPinPage f p m s' = (Throw HashNotFoundException, s')).
Proof.
  intros Hwf.
  unfold disposePage, bind, try_catch_HashNotFound, hashTable_lookup,
    hashTable_remove, File_deletePage, get, modify, ret; simpl.
  destruct (hashTable s !! (f, p)) as [frame|] eqn:Hh; simpl.
  - rewrite Hh. eexists. split; [done|]. simpl.
    pose proof (wf_hash _ Hwf _ _ Hh) as Hfr.
    split_and!; try done.
    + intros frame' [= <-]. split.
      * change (descAt (set_files ?d ?e (set_hashTable ?h ?x)) frame)
          with (descAt x frame).
        rewrite descAt_set_desc_eq; [done | by apply wf_frame_lt].
      * intros i Hi Hne.
        change (descAt (set_files ?d ?e (set_hashTable ?h ?x)) i)
          with (descAt x i).
        by rewrite descAt_set_desc_ne by lia.
    + intros m. rewrite unPinPage_eq. simpl. by rewrite lookup_delete_eq.
  - eexists. split; [done|]. simpl. split_and!; try done.
    + by rewrite delete_id.
    + intros m. rewrite unPinPage_eq. simpl. by rewrite Hh.
Qed.

Lemma disposePage_ignores_pins_witness :
  exists s',
    disposePage file1 2 run_evict2 = (Ret tt, s') /\
    io s' = io run_evict2 ++ [EvDelete file1 2] /\
    descAt s' 1 = clear (descAt run_evict2 1).
Proof.
  destruct (disposePage_ignores_pins file1 2 run_evict2)
    as (s' & He & Hio & _ & _ & _ & _ & Hd & _).
  - apply reachable_wf, uint32_bound_small. lia.
  - exists s'. split; [exact He|]. split; [exact Hio|].
    apply (Hd 1). vm_compute. reflexivity.
Defined.

(** ** [flushFile] again *)

(** X15. After a [flushFile] that returned, on a pool with at least
    one frame, every frame is free; so the next [flushFile], of any file,
    throws [BadBufferException] at frame 0 and changes nothing. *)
Theorem flushFile_twice_fails f g s :
  wf s -> 0 < numBufs s -> all_flushable s ->
  exists s',
    flushFile f s = (Ret tt, s') /\
    (forall i, 0 <= i < numBufs s -> descAt s' i = clear (descAt s i)) /\
    flushFile g s' = (Throw (BadBufferException 0 false false false), s').
Proof.
  intros Hwf Hn Hall. rewrite (flushFile_ok f s Hwf Hall).
  pose proof (wf_numBufs _ Hwf) as HN.
  destruct (flush_frames_spec f (Z.to_nat (numBufs s)) 0 s Hwf) as
    (Hwf' & Hn' & _ & _ & G4 & _); [lia | lia |].
  rewrite Z2Nat.id in Hwf', Hn', G4 by lia.
  set (s' := flush_frames f (seqZ 0 (numBufs s)) s) in *.
  assert (forall i, 0 <= i < numBufs s -> descAt s' i = clear (descAt s i)) as Hclr.
  { intros i Hi. rewrite G4 by lia. by rewrite decide_True by lia. }
  exists s'. split; [done|]. split; [done|].
  rewrite (flushFile_stops g s' 0 Hwf'); rewrite ?Hclr by lia; try done.
  - by rewrite Hn'.
  - intros j Hj. lia.
  - by right.
Qed.

Lemma flushFile_twice_fails_witness :
  exists s',
    flushFile file1 run_two_files = (Ret tt, s') /\
    (forall i, 0 <= i < numBufs run_two_files ->
       descAt s' i = clear (descAt run_two_files i)) /\
    flushFile file2 s' = (Throw (BadBufferException 0 false false false), s').
Proof.
  apply (flushFile_twice_fails file1 file2 run_two_files).
  - apply reachable_wf, uint32_bound_small. lia.
  - vm_compute. reflexivity.
  - intros i Hi.
    assert (numBufs run_two_files = 2) as Hn by (vm_compute; reflexivity).
    rewrite Hn in Hi.
    assert (i = 0 \/ i = 1) as [-> | ->] by lia; vm_compute; split; reflexivity.
Defined.


(** ** States reached from a fresh pool *)

Lemma flushFile_loop_numBufs file (n : nat) : forall i s,
  numBufs (snd (flushFile_loop file n i s)) = numBufs s.
Proof.
  induction n as [|n IH]; intros i s; simpl; [done|].
  unfold bind. rewrite flushFile_body_eq. simpl.
  destruct (negb (pinCnt (descAt s i) =? 0)); [done|].
  destruct (negb (valid (descAt s i))); [done|].
  rewrite IH. by destruct (flush_one_fields file i s) as [-> _].
Qed.

Lemma step_numBufs o s : numBufs (step o s) = numBufs s.
Proof.
  destruct o as [f p|f p d|f|f|f p]; simpl.
  - destruct (hashTable s !! (f, p)) as [frame|] eqn:Hh.
    + by rewrite (readPage_hit _ _ _ _ Hh).
    + rewrite (readPage_miss _ _ _ Hh).
      destruct (allocBuf s) as [r s1] eqn:Ha.
      destruct (allocBuf_frame _ _ _ Ha) as [Hn _].
      destruct r; simpl; try done.
      destruct (disk s1 !! (f, p)); simpl; [|done].
      by destruct (hashTable s1 !! (f, p)).
  - rewrite unPinPage_eq. simpl.
    destruct (hashTable s !! (f, p)); [|done].
    by destruct (pinCnt _ =? 0).
  - rewrite allocPage_eq. simpl.
    destruct (allocBuf _) as [r s1] eqn:Ha.
    destruct (allocBuf_frame _ _ _ Ha) as [Hn _].
    destruct r; simpl; try done.
    by destruct (hashTable s1 !! _).
  - apply flushFile_loop_numBufs.
  - unfold disposePage, bind, try_catch_HashNotFound, hashTable_lookup,
      hashTable_remove, File_deletePage, get, modify, ret; simpl.
    destruct (hashTable s !! (f, p)) as [frame|] eqn:Hh; simpl; [|done].
    by rewrite Hh.
Qed.

Lemma run_ops_numBufs ops : forall s, numBufs (run_ops ops s) = numBufs s.
Proof.
  induction ops as [|o ops IH]; intros s; [done|].
  simpl. change (foldl _ (step o s) ops) with (run_ops ops (step o s)).
  by rewrite IH, step_numBufs.
Qed.

(** X16. Whatever sequence of [readPage], [unPinPage], [allocPage],
    [flushFile] and [disposePage] calls is made on a manager built for
    [bufs] frames, and however each call ends, the number of frames stays
    [bufs], the descriptor table and the pool keep that length, the clock
    hand and every frame number in the page table stay below [bufs], and no
    pin count is negative. *)
Theorem reachable_state_in_bounds bufs d ops :
  0 <= bufs < UINT32_MOD ->
  let s := run_ops ops (BufMgr_new bufs d) in
  numBufs s = bufs /\
  length (bufDescTable s) = Z.to_nat bufs /\
  length (bufPool s) = Z.to_nat bufs /\
  (0 < bufs -> 0 <= clockHand s < bufs) /\
  (forall key frame, hashTable s !! key = Some frame -> 0 <= frame < bufs) /\
  (forall i, 0 <= pinCnt (descAt s i)).
Proof.
  intros Hb s.
  assert (wf s) as Hwf by (by apply run_ops_wf, wf_BufMgr_new).
  assert (numBufs s = bufs) as Hn.
  { unfold s. by rewrite run_ops_numBufs. }
  destruct Hwf as [_ H2 H3 H4 H5 H6]. rewrite Hn in *. done.
Qed.

Lemma reachable_state_in_bounds_witness :
  numBufs (run_ops [OpReadPage file1 1; OpAllocPage file2; OpFlushFile file1;
                    OpDisposePage file2 1; OpUnPinPage file1 1 true]
                   (BufMgr_new 2 disk_ex)) = 2.
Proof.
  apply (reachable_state_in_bounds 2 disk_ex
           [OpReadPage file1 1; OpAllocPage file2; OpFlushFile file1;
            OpDisposePage file2 1; OpUnPinPage file1 1 true]).
  pose proof UINT32_MOD_eq. lia.
Defined.
